(** * Retryable job dispatch of the AI Token Launchpad backend

    A shallow embedding of the Celery task handlers and periodic sweepers of
    [social_media/tasks.py] and [ai_agents/tasks.py], of the model properties
    they rely on ([social_media/models.py], [ai_agents/models.py]) and of
    [AIService.generate_content] / [AIService._record_interaction]
    ([ai_agents/services.py]).

    Conventions.
    - Database tables are finite maps from primary key to row.
    - A [DateTimeField] is an integer number of microseconds; [timezone.now()]
      is the parameter [now] of the task run that reads it (one run is taken
      at one instant).
    - A Python [float] is a binary64 primitive float; Python's [int / int] is
      the correctly rounded quotient.
    - A [try]/[except] is a match on [Result]; [str(e)] is [str]. An
      [async def] is read as an ordinary function and [await] as a call.
    - What lies outside the repository is a parameter of the run: the answers
      of the posting adapter and of the language model, and the broker behind
      [.delay()]. Celery's [Task.retry] is written out after its documented
      behaviour. *)

From Stdlib Require Import ZArith Floats Lia.
From stdpp Require Import gmap strings list fin_maps sorting pretty.

Set Warnings "-inexact-float".
Open Scope Z_scope.

(** ** Exceptions and results *)

Inductive Exn :=
| DoesNotExist (model : string)
| MultipleObjectsReturned (model : string) (found : nat)
| FieldError (keyword : string) (model : string)
| KeyError (key : string)
| SocialMediaError (msg : string)
| AIServiceError (msg : string)
| RateLimitExceeded (msg : string)
| ProviderError (msg : string)
| OperationalError (msg : string)
| ZeroDivisionError.

(** [str(e)], with the message formats of Django's ORM and of the f-strings in
    the services. *)
Definition str (e : Exn) : string :=
  match e with
  | DoesNotExist model => model +:+ " matching query does not exist."
  | MultipleObjectsReturned model found =>
      "get() returned more than one " +:+ model +:+ " -- it returned "
        +:+ pretty found +:+ "!"
  | FieldError keyword model =>
      "Cannot resolve keyword '" +:+ keyword +:+ "' into field of " +:+ model
  | KeyError key => "'" +:+ key +:+ "'"
  | SocialMediaError msg => msg
  | AIServiceError msg => msg
  | RateLimitExceeded msg => msg
  | ProviderError msg => msg
  | OperationalError msg => msg
  | ZeroDivisionError => "division by zero"
  end.

Inductive Result (A : Type) :=
| Ok (a : A)
| Raise (e : Exn).
Arguments Ok {A} a.
Arguments Raise {A} e.

Global Instance Result_bind : MBind Result := λ A B k r,
  match r with
  | Ok a => k a
  | Raise e => Raise e
  end.

(** ** Time *)

Abbreviation datetime := Z.
Abbreviation UUID := N.

Module timedelta.
Definition seconds (n : Z) : Z := n * 1000000.
Definition minutes (n : Z) : Z := seconds (n * 60).
Definition hours (n : Z) : Z := minutes (n * 60).
Definition days (n : Z) : Z := hours (n * 24).
End timedelta.

(** ** The task queue (Celery) as seen by the handlers *)

Module Celery.

(** What a bound task hands back to the worker: its return value, or the
    arguments of the [self.retry(exc=e, countdown=c)] call it raises from. *)
Inductive TaskExit (R : Type) :=
| Returned (r : R)
| RetryCalled (exc : Exn) (countdown : Z).
Arguments Returned {R} r.
Arguments RetryCalled {R} exc countdown.

(** [Task.retry]: the attempt counter of the request is incremented; past
    [max_retries] the original exception is re-raised and nothing is sent,
    otherwise the same task is sent again with the new counter, to run
    [countdown] seconds later. *)
Inductive RetryVerdict :=
| Redelivered (retries : nat) (countdown : Z)
| MaxRetriesExceeded (exc : Exn).

Definition retry (max_retries request_retries : nat) (exc : Exn)
    (countdown : Z) : RetryVerdict :=
  let retries := (request_retries + 1)%nat in
  if (max_retries <? retries)%nat then MaxRetriesExceeded exc
  else Redelivered retries countdown.

(** The worker's view of one task over its redeliveries. [task now retries]
    is one execution with [self.request.retries = retries]; a redelivered
    message runs when its countdown has passed. *)
Section Worker.
Context {R State : Type}.
Variable task : datetime → nat → State → TaskExit R * State.
Variable max_retries : nat.

Inductive RunEnd :=
| Succeeded (r : R)
| GaveUp (exc : Exn)
| Pending (retries : nat) (eta : datetime).

Record Execution := {
  exec_retries : nat;
  exec_at : datetime;
  exec_exit : TaskExit R;
}.

Fixpoint run (fuel : nat) (now : datetime) (retries : nat) (s : State)
    : list Execution * RunEnd * State :=
  let '(exit, s') := task now retries s in
  let this := {| exec_retries := retries; exec_at := now;
                 exec_exit := exit |} in
  match exit with
  | Returned r => ([this], Succeeded r, s')
  | RetryCalled exc countdown =>
      match retry max_retries retries exc countdown with
      | MaxRetriesExceeded e => ([this], GaveUp e, s')
      | Redelivered retries' countdown' =>
          let eta := now + timedelta.seconds countdown' in
          match fuel with
          | O => ([this], Pending retries' eta, s')
          | S fuel' =>
              let '(rest, e, s'') := run fuel' eta retries' s' in
              (this :: rest, e, s'')
          end
      end
  end.
End Worker.

End Celery.

(** ** social_media/models.py

    Only the columns the modelled code reads or writes are kept. [metrics] is
    the JSON object of integer counters the platforms report. *)

(** [SocialMediaPost.STATUS_CHOICES] *)
Inductive Status := DRAFT | SCHEDULED | PUBLISHED | FAILED | DELETED.

Global Instance Status_eq_dec : EqDecision Status.
Proof. solve_decision. Defined.

(** Python numbers as the metric formulas produce them. *)
Inductive Number :=
| Int (z : Z)
| Float (f : float).

Module PyFloat.

(** [float(z)] *)
Definition of_int (z : Z) : float :=
  SF2Prim (binary_normalize prec emax z 0 false).

(** [a / b] on two Python ints: [ZeroDivisionError] on [b == 0], else the
    correctly rounded quotient. For operands up to [2^53] in magnitude, as all
    counters here are, that is the binary64 quotient of the converted
    operands. *)
Definition int_truediv (a b : Z) : Result float :=
  if b =? 0 then Raise ZeroDivisionError
  else Ok (PrimFloat.div (of_int a) (of_int b)).

End PyFloat.

Module SocialMediaPost.

Record t := mk {
  user : UUID;
  platform : string;
  content : string;
  media_urls : list string;
  platform_post_id : option string;
  platform_url : option string;
  scheduled_time : option datetime;
  published_at : option datetime;
  status : Status;
  error_message : string;
  metrics : gmap string Z;
  created_at : datetime;
}.

Definition set_status (s : Status) (p : t) : t :=
  mk (user p) (platform p) (content p) (media_urls p) (platform_post_id p)
     (platform_url p) (scheduled_time p) (published_at p) s
     (error_message p) (metrics p) (created_at p).

Definition set_error_message (m : string) (p : t) : t :=
  mk (user p) (platform p) (content p) (media_urls p) (platform_post_id p)
     (platform_url p) (scheduled_time p) (published_at p) (status p)
     m (metrics p) (created_at p).

Definition set_published_at (d : option datetime) (p : t) : t :=
  mk (user p) (platform p) (content p) (media_urls p) (platform_post_id p)
     (platform_url p) (scheduled_time p) d (status p)
     (error_message p) (metrics p) (created_at p).

Definition set_platform_post_id (i : option string) (p : t) : t :=
  mk (user p) (platform p) (content p) (media_urls p) i
     (platform_url p) (scheduled_time p) (published_at p) (status p)
     (error_message p) (metrics p) (created_at p).

Definition set_platform_url (u : option string) (p : t) : t :=
  mk (user p) (platform p) (content p) (media_urls p) (platform_post_id p)
     u (scheduled_time p) (published_at p) (status p)
     (error_message p) (metrics p) (created_at p).

(** [post.status = "FAILED"; post.error_message = message] *)
Definition mark_failed (message : string) (p : t) : t :=
  set_error_message message (set_status FAILED p).

(** [post.status = "PUBLISHED"; post.published_at = now] *)
Definition mark_published (now : datetime) (p : t) : t :=
  set_published_at (Some now) (set_status PUBLISHED p).

(** [self.metrics.get(key, 0)] *)
Definition metrics_get (p : t) (key : string) : Z :=
  default 0 (metrics p !! key).

(** The generator of the last branch of [engagement_rate]:
    [sum(v for k, v in self.metrics.items()
         if k in ["likes", "comments", "shares", "reactions"])]. *)
Definition counted_keys : list string :=
  ["likes"; "comments"; "shares"; "reactions"].

Definition other_platform_engagement (p : t) : Z :=
  foldl Z.add 0
    (List.filter (λ kv, bool_decide (kv.1 ∈ counted_keys))
       (map_to_list (metrics p))).*2.

(** The [engagement_rate] property. *)
Definition engagement_rate (p : t) : Result Number :=
  if bool_decide (metrics p = ∅) || bool_decide (metrics p !! "impressions" = None)
  then Ok (Int 0)
  else
    let impressions := metrics_get p "impressions" in
    if impressions =? 0 then Ok (Int 0)
    else
      let engagement :=
        if String.eqb (platform p) "TWITTER" then
          metrics_get p "likes" + metrics_get p "retweets"
          + metrics_get p "replies" + metrics_get p "quotes"
        else if String.eqb (platform p) "LINKEDIN" then
          metrics_get p "likes" + metrics_get p "comments"
          + metrics_get p "shares"
        else other_platform_engagement p in
      if 0 <? impressions then
        q ← PyFloat.int_truediv engagement impressions;
        Ok (Float (PrimFloat.mul q (PyFloat.of_int 100)))
      else Ok (Int 0).

End SocialMediaPost.

Module SocialMediaSchedule.

Record t := mk {
  post : UUID;
  scheduled_time : datetime;
  is_processed : bool;
  processed_at : option datetime;
  retry_count : nat;
  max_retries : nat;
  next_retry : option datetime;
  error_message : string;
}.

(** [is_processed = True; processed_at = now] *)
Definition mark_processed (now : datetime) (s : t) : t :=
  mk (post s) (scheduled_time s) true (Some now) (retry_count s)
     (max_retries s) (next_retry s) (error_message s).

Definition set_error_message (m : string) (s : t) : t :=
  mk (post s) (scheduled_time s) (is_processed s) (processed_at s)
     (retry_count s) (max_retries s) (next_retry s) m.

(** [retry_count += 1; next_retry = now + timedelta(minutes=5 * retry_count)] *)
Definition schedule_retry (now : datetime) (s : t) : t :=
  let retry_count' := (retry_count s + 1)%nat in
  mk (post s) (scheduled_time s) (is_processed s) (processed_at s)
     retry_count' (max_retries s)
     (Some (now + timedelta.minutes (5 * Z.of_nat retry_count')))
     (error_message s).

End SocialMediaSchedule.

Module SocialMediaWebhook.

Record t := mk {
  platform : string;
  event_type : string;
  event_id : string;
  event_data : gmap string string;
  raw_payload : string;
  is_processed : bool;
  processed_at : option datetime;
  post : option UUID;
  created_at : datetime;
}.

Definition mark_processed (now : datetime) (w : t) : t :=
  mk (platform w) (event_type w) (event_id w) (event_data w) (raw_payload w)
     true (Some now) (post w) (created_at w).

End SocialMediaWebhook.

(** ** The state the social-media tasks run against *)

(** Messages the tasks put on the queue with [.delay(...)]. *)
Inductive Message :=
| post_to_social_media_msg (post_id : UUID)
| update_social_media_metrics_msg.

(** The arguments of one [social_media_service.post_content] call. *)
Record PostContentCall := {
  call_platform : string;
  call_content : string;
  call_user : UUID;
  call_media_urls : list string;
}.

(** The dictionary [post_content] returns, read with [result.get]. *)
Record PostContentResult := {
  result_post_id : option string;
  result_url : option string;
}.

(** [social_media_service.post_content] is an external capability: which of
    its three exits a call takes is decided by the environment. *)
Inductive AdapterExit :=
| Posted (result : PostContentResult)
| NotSupported
| PostingFailed (cause : string).

Record World := {
  posts : gmap UUID SocialMediaPost.t;
  schedules : gmap UUID SocialMediaSchedule.t;
  webhooks : gmap UUID SocialMediaWebhook.t;
  queue : list Message;
  adapter_calls : list PostContentCall;
}.

Definition set_posts (f : gmap UUID SocialMediaPost.t → gmap UUID SocialMediaPost.t)
    (w : World) : World :=
  {| posts := f (posts w); schedules := schedules w; webhooks := webhooks w;
     queue := queue w; adapter_calls := adapter_calls w |}.

Definition set_schedules
    (f : gmap UUID SocialMediaSchedule.t → gmap UUID SocialMediaSchedule.t)
    (w : World) : World :=
  {| posts := posts w; schedules := f (schedules w); webhooks := webhooks w;
     queue := queue w; adapter_calls := adapter_calls w |}.

Definition set_webhooks
    (f : gmap UUID SocialMediaWebhook.t → gmap UUID SocialMediaWebhook.t)
    (w : World) : World :=
  {| posts := posts w; schedules := schedules w; webhooks := f (webhooks w);
     queue := queue w; adapter_calls := adapter_calls w |}.

Definition enqueue (m : Message) (w : World) : World :=
  {| posts := posts w; schedules := schedules w; webhooks := webhooks w;
     queue := queue w ++ [m]; adapter_calls := adapter_calls w |}.

Definition log_call (c : PostContentCall) (w : World) : World :=
  {| posts := posts w; schedules := schedules w; webhooks := webhooks w;
     queue := queue w; adapter_calls := adapter_calls w ++ [c] |}.

(** [SocialMediaPost.objects.get(id=post_id)] *)
Definition get_post (w : World) (post_id : UUID) : Result SocialMediaPost.t :=
  match posts w !! post_id with
  | Some p => Ok p
  | None => Raise (DoesNotExist "SocialMediaPost")
  end.

(** [post.save()] *)
Definition save_post (post_id : UUID) (p : SocialMediaPost.t) : World → World :=
  set_posts <[post_id := p]>.

(** [schedule.save()] *)
Definition save_schedule (schedule_id : UUID) (s : SocialMediaSchedule.t)
    : World → World :=
  set_schedules <[schedule_id := s]>.

(** The exits of [SocialMediaService.post_content] with their messages. *)
Definition post_content (exit : AdapterExit) (c : PostContentCall)
    : Result PostContentResult :=
  match exit with
  | Posted result => Ok result
  | NotSupported =>
      Raise (SocialMediaError
               ("Platform " +:+ call_platform c +:+ " not supported"))
  | PostingFailed cause =>
      Raise (SocialMediaError
               ("Failed to post to " +:+ call_platform c +:+ ": " +:+ cause))
  end.

(** ** social_media/tasks.py: [post_to_social_media] *)

(** The environment answers the [k]-th adapter call. *)
Abbreviation Adapter := (nat → PostContentCall → AdapterExit).

(** The [except Exception as e] block: mark the post failed if it can be
    loaded, then call [self.retry]. *)
Definition post_to_social_media_except (retries : nat) (post_id : UUID)
    (e : Exn) (w : World) : Celery.TaskExit PostContentResult * World :=
  let w' :=
    match get_post w post_id with
    | Ok post => save_post post_id (SocialMediaPost.mark_failed (str e) post) w
    | Raise _ => w
    end in
  (Celery.RetryCalled e (60 * 2 ^ Z.of_nat retries), w').

(** The keyword arguments of the [post_content] call for a post. *)
Definition call_of (post : SocialMediaPost.t) : PostContentCall :=
  {| call_platform := SocialMediaPost.platform post;
     call_content := SocialMediaPost.content post;
     call_user := SocialMediaPost.user post;
     call_media_urls := SocialMediaPost.media_urls post |}.

(** "Update post with results" *)
Definition with_results (now : datetime) (result : PostContentResult)
    (post : SocialMediaPost.t) : SocialMediaPost.t :=
  SocialMediaPost.mark_published now
    (SocialMediaPost.set_platform_url (result_url result)
       (SocialMediaPost.set_platform_post_id (result_post_id result) post)).

Definition post_to_social_media (adapter : Adapter) (now : datetime)
    (retries : nat) (post_id : UUID) (w : World)
    : Celery.TaskExit PostContentResult * World :=
  match get_post w post_id with
  | Raise e => post_to_social_media_except retries post_id e w
  | Ok post =>
      let c := call_of post in
      let w1 := log_call c w in
      match post_content (adapter (length (adapter_calls w)) c) c with
      | Raise e => post_to_social_media_except retries post_id e w1
      | Ok result =>
          (Celery.Returned result,
           save_post post_id (with_results now result post) w1)
      end
  end.

(** ** ai_agents/models.py

    Only the columns the modelled code reads or writes are kept. *)

Module AIAgent.

Record t := mk {
  name : string;
  agent_type : string;
  total_interactions : nat;
  success_rate : float;
  average_response_time : float;
  last_active : option datetime;
}.

End AIAgent.

Module AIInteraction.

Record t := mk {
  user : UUID;
  agent : UUID;
  prompt : string;
  response : string;
  model_used : string;
  tokens_used : Z;
  response_time : float;
  cost : float;
  is_successful : bool;
  error_message : option string;
  timestamp : datetime;
}.

(** The [DateTimeField] a lookup keyword resolves to. The model declares
    [timestamp] and no other. *)
Definition datetime_field (keyword : string) : option (t → datetime) :=
  if String.eqb keyword "timestamp" then Some timestamp else None.

(** [AIInteraction.objects.filter(<keyword>__lt=bound)]: the row predicate
    of the queryset, or the [FieldError] of a keyword that names no field. *)
Definition filter_lt (keyword : string) (bound : datetime)
    : Result (t → bool) :=
  match datetime_field keyword with
  | Some column => Ok (λ r, column r <? bound)
  | None => Raise (FieldError keyword "AIInteraction")
  end.

End AIInteraction.

(** ** The state the AI tasks run against *)

Record GenerationResult := {
  text : string;
  gen_tokens_used : Z;
  gen_cost : float;
}.

(** [_generate_with_gemini] is the external model call. *)
Inductive ProviderExit :=
| Generated (result : GenerationResult)
| ProviderRaised (msg : string).

Record AIWorld := {
  users : gset UUID;
  agents : gmap UUID AIAgent.t;
  interactions : list AIInteraction.t;
  (** the cache entries [rate_limit:gemini:<user>], with their expiry *)
  rate_limit_cache : gmap UUID (nat * datetime);
  provider_calls : nat;
}.

(** The module-level service objects of [ai_agents/services.py]. *)
Inductive Service :=
| ai_service
| marketing_agent
| community_agent
| analytics_agent
| launch_guide_agent.

Record AIEnv := {
  (** [settings.GEMINI_RATE_LIMIT_RPM] *)
  GEMINI_RATE_LIMIT_RPM : nat;
  (** whether [self.gemini_model] was set up on that service object *)
  gemini_configured : Service → bool;
  (** the outcome of the [k]-th model call *)
  gemini : nat → ProviderExit;
  (** [time.time() - start_time] of the [k]-th [generate_content] *)
  elapsed : nat → float;
}.

(** [User.objects.get(id=user_id)] *)
Definition get_user (w : AIWorld) (user_id : UUID) : Result UUID :=
  if bool_decide (user_id ∈ users w) then Ok user_id
  else Raise (DoesNotExist "User").

(** [AIAgent.objects.get(agent_type=agent_type)] *)
Definition get_agent (w : AIWorld) (agent_type : string)
    : Result (UUID * AIAgent.t) :=
  match List.filter (λ kv, String.eqb (AIAgent.agent_type kv.2) agent_type)
          (map_to_list (agents w)) with
  | [] => Raise (DoesNotExist "AIAgent")
  | [kv] => Ok kv
  | found => Raise (MultipleObjectsReturned "AIAgent" (length found))
  end.

(** ** ai_agents/services.py *)

(** [AIService.check_rate_limit("gemini", user_id)] *)
Definition check_rate_limit (env : AIEnv) (now : datetime) (user_id : UUID)
    (w : AIWorld) : bool * AIWorld :=
  let current_requests :=
    match rate_limit_cache w !! user_id with
    | Some (n, expiry) => if now <? expiry then n else 0%nat
    | None => 0%nat
    end in
  if (GEMINI_RATE_LIMIT_RPM env <=? current_requests)%nat then (false, w)
  else
    (true,
     {| users := users w; agents := agents w; interactions := interactions w;
        rate_limit_cache :=
          <[user_id := ((current_requests + 1)%nat, now + timedelta.seconds 60)]>
            (rate_limit_cache w);
        provider_calls := provider_calls w |}).

(** [float / int] *)
Definition float_truediv_int (a : float) (b : Z) : Result float :=
  if b =? 0 then Raise ZeroDivisionError
  else Ok (PrimFloat.div a (PyFloat.of_int b)).

Definition with_interaction (row : AIInteraction.t) (w : AIWorld) : AIWorld :=
  {| users := users w; agents := agents w;
     interactions := interactions w ++ [row];
     rate_limit_cache := rate_limit_cache w;
     provider_calls := provider_calls w |}.

(** [agent.save()] *)
Definition save_agent (agent_id : UUID) (agent : AIAgent.t) (w : AIWorld)
    : AIWorld :=
  {| users := users w; agents := <[agent_id := agent]> (agents w);
     interactions := interactions w;
     rate_limit_cache := rate_limit_cache w;
     provider_calls := provider_calls w |}.

(** [AIInteraction.objects.filter(agent=agent, is_successful=True).count()] *)
Definition successful_interactions (agent_id : UUID) (w : AIWorld) : nat :=
  length (List.filter
            (λ r, bool_decide (AIInteraction.agent r = agent_id)
                  && AIInteraction.is_successful r) (interactions w)).

(** The running-average branch of [_record_interaction]. *)
Definition updated_average (agent : AIAgent.t) (response_time : float)
    : Result float :=
  if PrimFloat.eqb (AIAgent.average_response_time agent) 0%float
  then Ok response_time
  else
    float_truediv_int
      (PrimFloat.add
         (PrimFloat.mul (AIAgent.average_response_time agent)
            (PyFloat.of_int (Z.of_nat (AIAgent.total_interactions agent) - 1)))
         response_time)
      (Z.of_nat (AIAgent.total_interactions agent)).

(** The success-rate branch of [_record_interaction]. *)
Definition updated_success_rate (agent_id : UUID) (agent : AIAgent.t)
    (w : AIWorld) : Result float :=
  ratio ← PyFloat.int_truediv (Z.of_nat (successful_interactions agent_id w))
            (Z.of_nat (AIAgent.total_interactions agent));
  Ok (PrimFloat.mul ratio (PyFloat.of_int 100)).

(** [AIService._record_interaction]: create the interaction row, then update
    the agent object in place and save it. The agent object is returned as the
    call leaves it, also when the call raises half-way. *)
Definition _record_interaction (now : datetime) (agent_id : UUID)
    (agent : AIAgent.t) (row : AIInteraction.t) (w : AIWorld)
    : Result unit * AIAgent.t * AIWorld :=
  let w1 := with_interaction row w in
  let agent1 :=
    AIAgent.mk (AIAgent.name agent) (AIAgent.agent_type agent)
      (AIAgent.total_interactions agent + 1)
      (AIAgent.success_rate agent) (AIAgent.average_response_time agent)
      (AIAgent.last_active agent) in
  let finish (a : AIAgent.t) :=
    let a' :=
      AIAgent.mk (AIAgent.name a) (AIAgent.agent_type a)
        (AIAgent.total_interactions a) (AIAgent.success_rate a)
        (AIAgent.average_response_time a) (Some now) in
    (Ok (), a', save_agent agent_id a' w1) in
  if AIInteraction.is_successful row then
    match updated_average agent1 (AIInteraction.response_time row) with
    | Raise e => (Raise e, agent1, w1)
    | Ok average =>
        let agent2 :=
          AIAgent.mk (AIAgent.name agent1) (AIAgent.agent_type agent1)
            (AIAgent.total_interactions agent1) (AIAgent.success_rate agent1)
            average (AIAgent.last_active agent1) in
        match updated_success_rate agent_id agent2 w1 with
        | Raise e => (Raise e, agent2, w1)
        | Ok rate =>
            finish
              (AIAgent.mk (AIAgent.name agent2) (AIAgent.agent_type agent2)
                 (AIAgent.total_interactions agent2) rate
                 (AIAgent.average_response_time agent2)
                 (AIAgent.last_active agent2))
        end
    end
  else finish agent1.

(** What [generate_content] returns to the task. *)
Record GenerateContentReturn := {
  ret_text : string;
  ret_response_time : float;
  ret_tokens_used : Z;
  ret_cost : float;
  ret_provider : string;
}.

(** The model call of the [try] block of [generate_content], after the rate
    limit check, for the default provider ["gemini"]. *)
Definition call_provider (env : AIEnv) (service : Service) (allowed : bool)
    (w : AIWorld) : Result GenerationResult * AIWorld :=
  if negb allowed then
    (Raise (RateLimitExceeded "Rate limit exceeded for gemini"), w)
  else if gemini_configured env service then
    let w' :=
      {| users := users w; agents := agents w; interactions := interactions w;
         rate_limit_cache := rate_limit_cache w;
         provider_calls := (provider_calls w + 1)%nat |} in
    match gemini env (provider_calls w) with
    | Generated result => (Ok result, w')
    | ProviderRaised msg => (Raise (ProviderError msg), w')
    end
  else (Raise (AIServiceError "Provider gemini not available"), w).

(** [AIService.generate_content] with [provider="gemini"]. *)
Definition generate_content (env : AIEnv) (service : Service) (now : datetime)
    (prompt : string) (user_id agent_id : UUID) (agent : AIAgent.t)
    (w : AIWorld) : Result GenerateContentReturn * AIWorld :=
  let response_time := elapsed env (length (interactions w)) in
  let '(allowed, w1) := check_rate_limit env now user_id w in
  let '(generated, w2) := call_provider env service allowed w1 in
  let failed (e : Exn) (agent : AIAgent.t) (w : AIWorld) :=
    let row :=
      AIInteraction.mk user_id agent_id prompt "" "gemini" 0 response_time
        0%float false (Some (str e)) now in
    let '(_, _, w') := _record_interaction now agent_id agent row w in
    (Raise (AIServiceError ("Content generation failed: " +:+ str e)), w') in
  match generated with
  | Raise e => failed e agent w2
  | Ok result =>
      let row :=
        AIInteraction.mk user_id agent_id prompt (text result) "gemini"
          (gen_tokens_used result) response_time (gen_cost result) true None
          now in
      match _record_interaction now agent_id agent row w2 with
      | (Raise e, agent', w3) => failed e agent' w3
      | (Ok _, _, w3) =>
          (Ok {| ret_text := text result; ret_response_time := response_time;
                 ret_tokens_used := gen_tokens_used result;
                 ret_cost := gen_cost result; ret_provider := "gemini" |}, w3)
      end
  end.

(** ** ai_agents/tasks.py: [generate_ai_content] *)

Definition select_service (agent_type : string) : Service :=
  if String.eqb agent_type "MARKETING" then marketing_agent
  else if String.eqb agent_type "COMMUNITY" then community_agent
  else if String.eqb agent_type "ANALYTICS" then analytics_agent
  else if String.eqb agent_type "LAUNCH_GUIDE" then launch_guide_agent
  else ai_service.

Definition generate_ai_content (env : AIEnv) (now : datetime) (retries : nat)
    (user_id : UUID) (agent_type prompt : string) (w : AIWorld)
    : Celery.TaskExit GenerateContentReturn * AIWorld :=
  let attempt : Result GenerateContentReturn * AIWorld :=
    match get_user w user_id with
    | Raise e => (Raise e, w)
    | Ok user =>
        match get_agent w agent_type with
        | Raise e => (Raise e, w)
        | Ok (agent_id, agent) =>
            generate_content env (select_service agent_type) now prompt user
              agent_id agent w
        end
    end in
  match attempt with
  | (Ok result, w') => (Celery.Returned result, w')
  | (Raise e, w') => (Celery.RetryCalled e (60 * 2 ^ Z.of_nat retries), w')
  end.

(** ** social_media/tasks.py: [process_scheduled_posts] *)

(** A schedule with its key and, by [select_related("post")], its post as
    loaded by the query. *)
Abbreviation Row := (UUID * SocialMediaSchedule.t * SocialMediaPost.t)%type.

(** [Meta.ordering = ["scheduled_time"]] of [SocialMediaSchedule]. *)
Definition scheduled_before
    (a b : UUID * SocialMediaSchedule.t * SocialMediaPost.t) : Prop :=
  SocialMediaSchedule.scheduled_time a.1.2
  ≤ SocialMediaSchedule.scheduled_time b.1.2.

Global Instance scheduled_before_dec a b : Decision (scheduled_before a b).
Proof. unfold scheduled_before. apply _. Defined.

(** One joined row of the due query, or nothing when the filter or the join
    with the post drops the schedule. *)
Definition due_row (now : datetime) (w : World)
    (kv : UUID * SocialMediaSchedule.t)
    : option (UUID * SocialMediaSchedule.t * SocialMediaPost.t) :=
  if (SocialMediaSchedule.scheduled_time kv.2 <=? now)
     && negb (SocialMediaSchedule.is_processed kv.2)
  then post ← posts w !! SocialMediaSchedule.post kv.2; Some (kv, post)
  else None.

(** [SocialMediaSchedule.objects.filter(scheduled_time__lte=timezone.now(),
    is_processed=False).select_related("post")] *)
Definition due_schedules (now : datetime) (w : World)
    : list (UUID * SocialMediaSchedule.t * SocialMediaPost.t) :=
  merge_sort scheduled_before (omap (due_row now w) (map_to_list (schedules w))).

(** [broker post_id] is the exception a [post_to_social_media.delay(post_id)]
    raises, if it does. *)
Abbreviation Broker := (UUID → option Exn).

(** The body of the [for schedule in due_schedules] loop. *)
Definition process_schedule (broker : Broker) (now : datetime)
    (acc : nat * World)
    (row : UUID * SocialMediaSchedule.t * SocialMediaPost.t) : nat * World :=
  let '(processed_count, w) := acc in
  let '(schedule_id, schedule, post) := row in
  let post_id := SocialMediaSchedule.post schedule in
  match broker post_id with
  | None =>
      let w1 := enqueue (post_to_social_media_msg post_id) w in
      let w2 :=
        save_schedule schedule_id
          (SocialMediaSchedule.mark_processed now schedule) w1 in
      ((processed_count + 1)%nat, w2)
  | Some e =>
      if (SocialMediaSchedule.retry_count schedule
          <? SocialMediaSchedule.max_retries schedule)%nat
      then
        (processed_count,
         save_schedule schedule_id
           (SocialMediaSchedule.schedule_retry now schedule) w)
      else
        let w1 :=
          save_schedule schedule_id
            (SocialMediaSchedule.set_error_message (str e)
               (SocialMediaSchedule.mark_processed now schedule)) w in
        (processed_count,
         save_post post_id
           (SocialMediaPost.mark_failed ("Max retries exceeded: " +:+ str e)
              post) w1)
  end.

Definition process_scheduled_posts (broker : Broker) (now : datetime)
    (w : World) : nat * World :=
  foldl (process_schedule broker now) (0%nat, w) (due_schedules now w).

(** ** social_media/tasks.py: [cleanup_failed_posts] *)

(** Whether a foreign key points at one of the posts a queryset selects. *)
Definition points_at (selected : SocialMediaPost.t → bool) (w : World)
    (post_id : UUID) : bool :=
  match posts w !! post_id with
  | Some p => selected p
  | None => false
  end.

(** [QuerySet.delete()] on posts: the rows go, and with them, by the
    [on_delete=models.CASCADE] of [SocialMediaSchedule.post] and
    [SocialMediaWebhook.post], the schedules and webhooks that point at them. *)
Definition delete_posts (selected : SocialMediaPost.t → bool) (w : World)
    : World :=
  {| posts := filter (λ kv, selected kv.2 = false) (posts w);
     schedules :=
       filter (λ kv, points_at selected w (SocialMediaSchedule.post kv.2) = false)
         (schedules w);
     webhooks :=
       filter (λ kv, from_option (points_at selected w) false
                       (SocialMediaWebhook.post kv.2) = false)
         (webhooks w);
     queue := queue w; adapter_calls := adapter_calls w |}.

(** [status="FAILED", created_at__lt=cutoff_date] *)
Definition failed_before (cutoff_date : datetime) (p : SocialMediaPost.t) : bool :=
  bool_decide (SocialMediaPost.status p = FAILED)
  && (SocialMediaPost.created_at p <? cutoff_date).

(** [is_processed=True, processed_at__lt=bound]; a NULL [processed_at]
    matches no comparison. *)
Definition processed_before (bound : datetime) (s : SocialMediaSchedule.t)
    : bool :=
  SocialMediaSchedule.is_processed s
  && match SocialMediaSchedule.processed_at s with
     | Some at_ => at_ <? bound
     | None => false
     end.

Record CleanupReport := {
  failed_posts_cleaned : nat;
  schedules_cleaned : nat;
}.

Definition cleanup_failed_posts (now : datetime) (w : World)
    : CleanupReport * World :=
  let cutoff_date := now - timedelta.days 30 in
  let failed_count :=
    size (filter (λ kv, failed_before cutoff_date kv.2 = true) (posts w)) in
  let w1 := delete_posts (failed_before cutoff_date) w in
  let bound := now - timedelta.days 7 in
  let schedule_count :=
    size (filter (λ kv, processed_before bound kv.2 = true) (schedules w1)) in
  let w2 :=
    set_schedules (filter (λ kv, processed_before bound kv.2 = false)) w1 in
  ({| failed_posts_cleaned := failed_count;
      schedules_cleaned := schedule_count |}, w2).

(** ** ai_agents/tasks.py: [cleanup_ai_interactions] *)

Definition cleanup_ai_interactions (now : datetime) (w : AIWorld)
    : Result nat * AIWorld :=
  let cutoff_date := now - timedelta.days 90 in
  match AIInteraction.filter_lt "created_at" cutoff_date with
  | Raise e => (Raise e, w)
  | Ok old =>
      let count := length (List.filter old (interactions w)) in
      (Ok count,
       {| users := users w; agents := agents w;
          interactions := List.filter (λ r, negb (old r)) (interactions w);
          rate_limit_cache := rate_limit_cache w;
          provider_calls := provider_calls w |})
  end.

(** ** social_media/tasks.py: [process_social_webhooks] *)

(** The [webhook_data] dictionary of a well-formed delivery. *)
Record WebhookData := {
  wd_platform : string;
  wd_event_type : string;
  wd_event_id : string;
  wd_data : gmap string string;
  wd_raw_payload : string;
}.

(** [SocialMediaPost.objects.get(platform_post_id=...)] *)
Definition get_post_by_platform_post_id (w : World) (platform_post_id : string)
    : Result (UUID * SocialMediaPost.t) :=
  match List.filter
          (λ kv, bool_decide
                   (SocialMediaPost.platform_post_id kv.2 = Some platform_post_id))
          (map_to_list (posts w)) with
  | [] => Raise (DoesNotExist "SocialMediaPost")
  | [kv] => Ok kv
  | found => Raise (MultipleObjectsReturned "SocialMediaPost" (length found))
  end.

(** The [if]/[elif] on the event type; only [SocialMediaPost.DoesNotExist] is
    caught inside. *)
Definition handle_webhook_event (now : datetime) (data : WebhookData)
    (w : World) : Result World :=
  if String.eqb (wd_event_type data) "POST_PUBLISHED" then
    match wd_data data !! "post_id" with
    | None => Raise (KeyError "post_id")
    | Some platform_post_id =>
        match get_post_by_platform_post_id w platform_post_id with
        | Ok (post_id, post) =>
            Ok (save_post post_id (SocialMediaPost.mark_published now post) w)
        | Raise (DoesNotExist _) => Ok w
        | Raise e => Raise e
        end
    end
  else if bool_decide (wd_event_type data ∈ ["LIKE"; "COMMENT"; "SHARE"]) then
    match wd_data data !! "post_id" with
    | None => Raise (KeyError "post_id")
    | Some platform_post_id =>
        match get_post_by_platform_post_id w platform_post_id with
        | Ok _ => Ok (enqueue update_social_media_metrics_msg w)
        | Raise (DoesNotExist _) => Ok w
        | Raise e => Raise e
        end
    end
  else Ok w.

(** [webhook_id] is the [uuid4] drawn for the new webhook row. *)
Definition process_social_webhooks (webhook_id : UUID) (now : datetime)
    (data : WebhookData) (w : World) : Result UUID * World :=
  let webhook :=
    SocialMediaWebhook.mk (wd_platform data) (wd_event_type data)
      (wd_event_id data) (wd_data data) (wd_raw_payload data) false None None
      now in
  let w1 := set_webhooks <[webhook_id := webhook]> w in
  match handle_webhook_event now data w1 with
  | Raise e => (Raise e, w1)
  | Ok w2 =>
      (Ok webhook_id,
       set_webhooks
         <[webhook_id := SocialMediaWebhook.mark_processed now webhook]> w2)
  end.

(** ** Histories of task runs over the social-media tables *)

Inductive Event :=
| RunPost (adapter : Adapter) (now : datetime) (retries : nat) (post_id : UUID)
| RunSweep (broker : Broker) (now : datetime)
| RunWebhook (webhook_id : UUID) (now : datetime) (data : WebhookData).

Definition step (w : World) (ev : Event) : World :=
  match ev with
  | RunPost adapter now retries post_id =>
      (post_to_social_media adapter now retries post_id w).2
  | RunSweep broker now => (process_scheduled_posts broker now w).2
  | RunWebhook webhook_id now data =>
      (process_social_webhooks webhook_id now data w).2
  end.

Definition history (w : World) (evs : list Event) : World := foldl step w evs.

(** [post_to_social_media] is declared [@shared_task(bind=True, max_retries=3)],
    and so is [generate_ai_content]. *)
Definition task_max_retries : nat := 3.

(** [post_to_social_media] as the worker runs it, redeliveries included. *)
Definition deliver_post (adapter : Adapter) (fuel : nat) (now : datetime)
    (post_id : UUID) (w : World) :=
  Celery.run (λ now retries, post_to_social_media adapter now retries post_id)
    task_max_retries fuel now 0 w.

(** ** The properties the specification states, as it words them *)

(** "Backoff delay for attempt [n] (0-indexed) equals [60 * 2^n] seconds." *)
Definition spec_backoff_delay (n : nat) : Z := 60 * 2 ^ Z.of_nat n.

(** "[DRAFT/SCHEDULED → IN_PROGRESS → {PUBLISHED, FAILED}]; never backward."
    [STATUS_CHOICES] has no [IN_PROGRESS], so the order has two ranks. *)
Definition terminal (s : Status) : Prop := s = PUBLISHED ∨ s = FAILED.


(** What the tasks may do to the status of a stored post: leave it, or set
    it to [PUBLISHED] or [FAILED]. *)
Definition settled (p p' : SocialMediaPost.t) : Prop :=
  SocialMediaPost.status p' = SocialMediaPost.status p
  ∨ terminal (SocialMediaPost.status p').

(** ** The loop body of [process_scheduled_posts], row by row *)

(** The schedule row that one pass of the loop body saves. *)
Definition swept (broker : Broker) (now : datetime) (s : SocialMediaSchedule.t)
    : SocialMediaSchedule.t :=
  match broker (SocialMediaSchedule.post s) with
  | None => SocialMediaSchedule.mark_processed now s
  | Some e =>
      if (SocialMediaSchedule.retry_count s
          <? SocialMediaSchedule.max_retries s)%nat
      then SocialMediaSchedule.schedule_retry now s
      else SocialMediaSchedule.set_error_message (str e)
             (SocialMediaSchedule.mark_processed now s)
  end.

(** The submission of the row raised and its retries are used up. *)
Definition exhausted (broker : Broker) (s : SocialMediaSchedule.t) : bool :=
  match broker (SocialMediaSchedule.post s) with
  | None => false
  | Some _ =>
      negb (SocialMediaSchedule.retry_count s
            <? SocialMediaSchedule.max_retries s)%nat
  end.

(** The submission of the row went through. *)
Definition submitted (broker : Broker)
    (row : UUID * SocialMediaSchedule.t * SocialMediaPost.t) : bool :=
  match broker (SocialMediaSchedule.post row.1.2) with
  | None => true
  | Some _ => false
  end.


(** ** Concrete rows and environments used by the examples below *)

Definition a_draft_post : SocialMediaPost.t :=
  SocialMediaPost.mk 1 "TWITTER" "Test post for task" [] None None None None
    DRAFT "" ∅ 0.

(** One draft post, with primary key 7. *)
Definition one_draft : World :=
  {| posts := {[ 7%N := a_draft_post ]}; schedules := ∅; webhooks := ∅;
     queue := []; adapter_calls := [] |}.

(** The platform is rate-limiting: every call to the adapter fails. *)
Definition always_failing : Adapter := λ _ _, PostingFailed "rate limit".

(** The post of [test_post_engagement_rate_calculation]. *)
Definition a_twitter_post : SocialMediaPost.t :=
  SocialMediaPost.mk 1 "TWITTER" "Test post" [] None None None None PUBLISHED ""
    (<["impressions" := 1000]> (<["likes" := 50]> (<["retweets" := 10]>
       (<["replies" := 5]> (<["quotes" := 3]> ∅))))) 0.

Definition a_marketing_agent : AIAgent.t :=
  AIAgent.mk "Marketing Assistant" "MARKETING" 0 0%float 0%float None.

(** One user (key 1) and one agent (key 5) that has not been used yet. *)
Definition fresh_agent : AIWorld :=
  {| users := {[ 1%N ]}; agents := {[ 5%N := a_marketing_agent ]};
     interactions := []; rate_limit_cache := ∅; provider_calls := 0 |}.

(** The model call times out once and then answers; every call takes 2 s. *)
Definition flaky_provider : AIEnv :=
  {| GEMINI_RATE_LIMIT_RPM := 60;
     gemini_configured := λ _, true;
     gemini := λ k,
       match k with
       | O => ProviderRaised "deadline exceeded"
       | _ => Generated {| text := "To the moon"; gen_tokens_used := 3;
                           gen_cost := 0%float |}
       end;
     elapsed := λ _, 2%float |}.

(** [generate_ai_content] run twice for the same user and agent. *)
Definition after_one_failure_one_success : AIWorld :=
  let w1 := (generate_ai_content flaky_provider 0 0 1%N "MARKETING" "hi"
               fresh_agent).2 in
  (generate_ai_content flaky_provider 60000000 1 1%N "MARKETING" "hi" w1).2.

(** A successful interaction of user 1 with agent 5 that took 1.5 s. *)
Definition a_successful_row : AIInteraction.t :=
  AIInteraction.mk 1 5 "hi" "hello" "gemini" 2 1.5%float 0%float true None 0.


(** A post that went out earlier, as tweet 123. *)
Definition a_published_post : SocialMediaPost.t :=
  SocialMediaPost.mk 1 "TWITTER" "Test post for task" []
    (Some "123") (Some "https://twitter.com/user/status/123") None (Some 100)
    PUBLISHED "" ∅ 0.

Definition one_published : World :=
  {| posts := {[ 7%N := a_published_post ]}; schedules := ∅; webhooks := ∅;
     queue := []; adapter_calls := [] |}.

(** The platform accepts every post, as tweet 456. *)
Definition always_posting : Adapter := λ _ _,
  Posted {| result_post_id := Some "456";
            result_url := Some "https://twitter.com/user/status/456" |}.


(** The scene of [test_process_scheduled_posts_task]: post 7 was due half an
    hour before [now = 3600 s], post 8 is due an hour after. *)
Definition a_due_post : SocialMediaPost.t :=
  SocialMediaPost.mk 1 "TWITTER" "Due post" [] None None
    (Some (timedelta.minutes 30)) None SCHEDULED "" ∅ 0.

Definition a_future_post : SocialMediaPost.t :=
  SocialMediaPost.mk 1 "TWITTER" "Future post" [] None None
    (Some (timedelta.minutes 120)) None SCHEDULED "" ∅ 0.

Definition a_due_schedule : SocialMediaSchedule.t :=
  SocialMediaSchedule.mk 7 (timedelta.minutes 30) false None 0 3 None "".

Definition a_future_schedule : SocialMediaSchedule.t :=
  SocialMediaSchedule.mk 8 (timedelta.minutes 120) false None 0 3 None "".

Definition two_scheduled : World :=
  {| posts := <[7%N := a_due_post]> {[ 8%N := a_future_post ]};
     schedules := <[70%N := a_due_schedule]> {[ 80%N := a_future_schedule ]};
     webhooks := ∅; queue := []; adapter_calls := [] |}.

Definition an_hour_in : datetime := timedelta.minutes 60.

(** The broker takes every message. *)
Definition broker_up : Broker := λ _, None.

(** The broker cannot be reached. *)
Definition broker_down : Broker := λ _,
  Some (OperationalError "Connection refused").



(** A post created at time 0 that failed, and its schedule entry, processed
    on day 28. On day 31 the post is past its 30 days, the entry three days
    into its 7. *)
Definition a_failed_post : SocialMediaPost.t :=
  SocialMediaPost.mk 1 "TWITTER" "Launch" [] None None
    (Some (timedelta.days 28)) None FAILED "Failed to post to TWITTER: down" ∅ 0.

Definition its_schedule : SocialMediaSchedule.t :=
  SocialMediaSchedule.mk 7 (timedelta.days 28) true (Some (timedelta.days 28))
    0 3 None "".

Definition one_failed : World :=
  {| posts := {[ 7%N := a_failed_post ]};
     schedules := {[ 70%N := its_schedule ]};
     webhooks := ∅; queue := []; adapter_calls := [] |}.

(** An interaction recorded at time 0, found on day 91. *)
Definition an_old_interaction : AIInteraction.t :=
  AIInteraction.mk 1 5 "hi" "hello" "gemini" 2 1.5%float 0%float true None 0.

Definition one_old_interaction : AIWorld :=
  {| users := {[ 1%N ]}; agents := {[ 5%N := a_marketing_agent ]};
     interactions := [an_old_interaction]; rate_limit_cache := ∅;
     provider_calls := 1 |}.

(** The platform reports tweet 123 as published. *)
Definition a_published_event : WebhookData :=
  {| wd_platform := "TWITTER"; wd_event_type := "POST_PUBLISHED";
     wd_event_id := "evt-1"; wd_data := {[ "post_id" := "123" ]};
     wd_raw_payload := "{}" |}.

(** * Further runs of the tasks *)

(** [generate_ai_content] as the worker runs it, redeliveries included. *)
Definition deliver_ai_content (env : AIEnv) (fuel : nat) (now : datetime)
    (user_id : UUID) (agent_type prompt : string) (w : AIWorld) :=
  Celery.run
    (λ now retries, generate_ai_content env now retries user_id agent_type prompt)
    task_max_retries fuel now 0 w.

(** [check_rate_limit] called [calls] times in a row at one instant; the
    number of calls let through comes with the final cache. *)
Fixpoint burst (env : AIEnv) (now : datetime) (user_id : UUID) (calls : nat)
    (w : AIWorld) : nat * AIWorld :=
  match calls with
  | O => (0%nat, w)
  | S calls' =>
      let '(allowed, w1) := check_rate_limit env now user_id w in
      let '(passed, w2) := burst env now user_id calls' w1 in
      ((if allowed then 1 else 0) + passed, w2)%nat
  end.

(** A sweep, at or after [due], in which the submission of [post_id] raises. *)
Definition failing_sweep (post_id : UUID) (due : datetime) (ev : Event) : Prop :=
  match ev with
  | RunSweep broker now => is_Some (broker post_id) ∧ due ≤ now
  | _ => False
  end.

(** Referential integrity of [SocialMediaSchedule.post]: every schedule
    entry points at a stored post. *)
Definition bound_to_posts (w : World) : Prop :=
  ∀ id s, schedules w !! id = Some s →
    is_Some (posts w !! SocialMediaSchedule.post s).

(** [cache.get(cache_key, 0)]: the requests counted for the user in the
    minute that is running at [now]. *)
Definition current_requests (now : datetime) (user_id : UUID) (w : AIWorld)
    : nat :=
  match rate_limit_cache w !! user_id with
  | Some (n, expiry) => if now <? expiry then n else 0%nat
  | None => 0%nat
  end.



(** A limit of one request per minute, on a service whose model is set up
    only for the marketing agent. *)
Definition one_per_minute : AIEnv :=
  {| GEMINI_RATE_LIMIT_RPM := 1;
     gemini_configured := λ service,
       match service with marketing_agent => true | _ => false end;
     gemini := λ _, Generated {| text := "gm"; gen_tokens_used := 1;
                                 gen_cost := 0%float |};
     elapsed := λ _, 1%float |}.

(** User 1 has used up the minute that ends at second 60. *)
Definition a_used_minute : AIWorld :=
  {| users := {[ 1%N ]}; agents := {[ 5%N := a_marketing_agent ]};
     interactions := []; rate_limit_cache := {[ 1%N := (1%nat, timedelta.seconds 60) ]};
     provider_calls := 1 |}.

(** ** social_media/models.py: [SocialMediaAccount] *)

Module SocialMediaAccount.

Inductive Status := ACTIVE | INACTIVE | SUSPENDED | ERROR.

Global Instance AccountStatus_eq_dec : EqDecision Status.
Proof. solve_decision. Defined.

(** The fields that [is_token_valid] and [sync_social_accounts] read or
    write. *)
Record t := mk {
  access_token : string;
  token_expires_at : option datetime;
  status : Status;
  last_sync : option datetime;
}.

Definition set_status (s : Status) (a : t) : t :=
  mk (access_token a) (token_expires_at a) s (last_sync a).

Definition set_last_sync (d : option datetime) (a : t) : t :=
  mk (access_token a) (token_expires_at a) (status a) d.

(** The property [is_token_valid], read at [now]. A [datetime] is always
    truthy, so the first branch is taken whenever the field is set. *)
Definition is_token_valid (now : datetime) (self : t) : bool :=
  match token_expires_at self with
  | Some expires => now <? expires
  | None => negb (String.eqb (access_token self) "")
  end.

End SocialMediaAccount.

(** ** social_media/tasks.py: [sync_social_accounts] *)

Abbreviation Accounts := (gmap UUID SocialMediaAccount.t).

(** [SocialMediaAccount.objects.filter(status="ACTIVE")] *)
Definition active_accounts (accounts : Accounts)
    : list (UUID * SocialMediaAccount.t) :=
  List.filter
    (λ kv, bool_decide (SocialMediaAccount.status kv.2 = SocialMediaAccount.ACTIVE))
    (map_to_list accounts).

(** The body of the loop, on [updated_count] and the table. Nothing in it
    raises short of a database failure, so its [except] branch is not taken. *)
Definition sync_account (now : datetime) (acc : nat * Accounts)
    (row : UUID * SocialMediaAccount.t) : nat * Accounts :=
  let '(updated_count, accounts) := acc in
  let '(id, account) := row in
  if negb (SocialMediaAccount.is_token_valid now account) then
    (updated_count,
     <[id := SocialMediaAccount.set_status SocialMediaAccount.ERROR account]>
       accounts)
  else
    ((updated_count + 1)%nat,
     <[id := SocialMediaAccount.set_last_sync (Some now) account]> accounts).

Definition sync_social_accounts (now : datetime) (accounts : Accounts)
    : nat * Accounts :=
  foldl (sync_account now) (0%nat, accounts) (active_accounts accounts).

(** Two accounts: one whose token runs out at second 100, one without an
    expiry date and with a token. *)
Definition two_accounts : Accounts :=
  {[ 1%N := SocialMediaAccount.mk "t1" (Some (timedelta.seconds 100))
              SocialMediaAccount.ACTIVE None;
     2%N := SocialMediaAccount.mk "t2" None SocialMediaAccount.ACTIVE None ]}.

(** ** ai_agents/models.py: [AIConversationContext] *)

(** Python's slice [l[start:]] for an integer [start]: a negative [start]
    counts from the end and is clamped at the front of the list. *)
Definition slice_from {A} (start : Z) (l : list A) : list A :=
  let len := Z.of_nat (length l) in
  drop (Z.to_nat (if start <? 0 then Z.max (len + start) 0 else start)) l.

Module AIConversationContext.

(** One entry of [conversation_history]; [timestamp] stands for the ISO
    text of the instant. *)
Record Message := {
  role : string;
  content : string;
  timestamp : datetime;
}.

Record t := mk {
  conversation_history : list Message;
  expires_at : datetime;
}.

Definition is_expired (now : datetime) (self : t) : bool :=
  expires_at self <? now.

(** [add_message]: the object as appended to and saved. *)
Definition add_message (now : datetime) (role content : string) (self : t) : t :=
  mk (conversation_history self
        ++ [{| role := role; content := content; timestamp := now |}])
     (expires_at self).

Definition get_recent_messages (limit : Z) (self : t) : list Message :=
  slice_from (- limit) (conversation_history self).

End AIConversationContext.

(** ** social_media/models.py: [SocialMediaHashtag] *)

Module SocialMediaHashtag.

(** [trending_score] is a [DecimalField(max_digits=10, decimal_places=2)]:
    an integer number of hundredths. [last_updated] is [auto_now]: every
    save sets it to the instant of the save. *)
Record t := mk {
  category : string;
  trending_score : Z;
  is_trending : bool;
  last_updated : datetime;
}.

(** Ten digits, two of them decimals: what the column can hold. *)
Definition storable (score : Z) : bool := Z.abs score <? 10 ^ 10.

(** A whole number as a score. *)
Definition points (n : Z) : Z := n * 100.

End SocialMediaHashtag.

(** The table of hashtags by [tag], which is unique. *)
Abbreviation Hashtags := (gmap string SocialMediaHashtag.t).

(** ** social_media/tasks.py: [update_trending_hashtags] *)

Definition trending_tags : list string :=
  ["#crypto"; "#blockchain"; "#defi"; "#nft"; "#web3"; "#bitcoin";
   "#ethereum"; "#altcoin"; "#tokenlaunch"].

(** The character [#] (code 35). *)
Definition hash_sign : Ascii.ascii := Ascii.ascii_of_nat 35.

(** [tag.replace("#", "")] *)
Fixpoint replace_hash (tag : string) : string :=
  match tag with
  | EmptyString => EmptyString
  | String c rest =>
      if Ascii.eqb c hash_sign then replace_hash rest
      else String c (replace_hash rest)
  end.

(** [hashtag.save()]: the row is written with [last_updated = now], or the
    save raises because the score does not fit the column. *)
Definition save_hashtag (now : datetime) (tag : string)
    (hashtag : SocialMediaHashtag.t) (table : Hashtags) : option Hashtags :=
  if SocialMediaHashtag.storable (SocialMediaHashtag.trending_score hashtag)
  then Some (<[tag := SocialMediaHashtag.mk
                        (SocialMediaHashtag.category hashtag)
                        (SocialMediaHashtag.trending_score hashtag)
                        (SocialMediaHashtag.is_trending hashtag) now]> table)
  else None.

(** The first loop: [get_or_create] and, for a tag that existed, ten points
    more. [None] as count: a save raised, and the task with it. *)
Fixpoint bump_tags (now : datetime) (tags : list string) (updated_count : nat)
    (table : Hashtags) : option nat * Hashtags :=
  match tags with
  | [] => (Some updated_count, table)
  | tag :: rest =>
      let name := replace_hash tag in
      let hashtag :=
        match table !! name with
        | None =>
            SocialMediaHashtag.mk "crypto" (SocialMediaHashtag.points 100)
              true now
        | Some found =>
            SocialMediaHashtag.mk (SocialMediaHashtag.category found)
              (SocialMediaHashtag.trending_score found
               + SocialMediaHashtag.points 10)
              true now
        end in
      match save_hashtag now name hashtag table with
      | Some table' => bump_tags now rest (updated_count + 1) table'
      | None => (None, table)
      end
  end.

(** [SocialMediaHashtag.objects.filter(last_updated__lt=now - 6h)], run when
    the second loop starts. *)
Definition old_hashtags (now : datetime) (table : Hashtags)
    : list (string * SocialMediaHashtag.t) :=
  List.filter
    (λ kv, SocialMediaHashtag.last_updated kv.2 <? now - timedelta.hours 6)
    (map_to_list table).

Definition decayed (now : datetime) (hashtag : SocialMediaHashtag.t)
    : SocialMediaHashtag.t :=
  let score :=
    Z.max 0 (SocialMediaHashtag.trending_score hashtag
             - SocialMediaHashtag.points 5) in
  SocialMediaHashtag.mk (SocialMediaHashtag.category hashtag) score
    (SocialMediaHashtag.points 50 <? score) now.

(** The second loop; [false]: a save raised. *)
Fixpoint decay_hashtags (now : datetime)
    (rows : list (string * SocialMediaHashtag.t)) (table : Hashtags)
    : bool * Hashtags :=
  match rows with
  | [] => (true, table)
  | (tag, hashtag) :: rest =>
      match save_hashtag now tag (decayed now hashtag) table with
      | Some table' => decay_hashtags now rest table'
      | None => (false, table)
      end
  end.

(** The task: [Some updated_count] when it returns, [None] when it raises. *)
Definition update_trending_hashtags (now : datetime) (table : Hashtags)
    : option nat * Hashtags :=
  match bump_tags now trending_tags 0 table with
  | (None, table1) => (None, table1)
  | (Some updated_count, table1) =>
      match decay_hashtags now (old_hashtags now table1) table1 with
      | (true, table2) => (Some updated_count, table2)
      | (false, table2) => (None, table2)
      end
  end.

(** The tags as stored. *)
Definition trending_names : list string := replace_hash <$> trending_tags.

(** Every stored score can take ten more points [runs] times. *)
Definition with_headroom (runs : Z) (table : Hashtags) : Prop :=
  ∀ tag hashtag, table !! tag = Some hashtag →
    Z.abs (SocialMediaHashtag.trending_score hashtag)
    < 10 ^ 10 - runs * SocialMediaHashtag.points 10.

(** What the first loop leaves for a listed tag. *)
Definition bumped (now : datetime) (found : option SocialMediaHashtag.t)
    : SocialMediaHashtag.t :=
  match found with
  | None =>
      SocialMediaHashtag.mk "crypto" (SocialMediaHashtag.points 100) true now
  | Some found =>
      SocialMediaHashtag.mk (SocialMediaHashtag.category found)
        (SocialMediaHashtag.trending_score found + SocialMediaHashtag.points 10)
        true now
  end.

(** A hashtag that is not on the list, last updated at instant 0. *)
Definition one_stale_hashtag : Hashtags :=
  {[ "memecoin" := SocialMediaHashtag.mk "crypto" (SocialMediaHashtag.points 52)
                     true 0 ]}.

(** ** social_media/tasks.py: [bulk_schedule_posts] *)

(** One element of [posts_data], with the keys the task reads that end up in
    a modelled field; [None]: the key is missing. *)
Record PostData := {
  data_platform : option string;
  data_content : option string;
  data_media_urls : option (list string);
  data_scheduled_time : option string;
}.

(** One element of the returned list. *)
Inductive BulkEntry :=
| BulkScheduled (post_id schedule_id : UUID) (platform : string)
    (scheduled_time : datetime)
| BulkError (error : string) (post_data : PostData).

(** [datetime.fromisoformat]: the instant, or the message of the
    [ValueError]. *)
Abbreviation FromIsoFormat := (string → datetime + string).

(** [uuid.uuid4()] as the default of a primary key: some key that is not in
    the table. *)
Definition uuid4 {A} (table : gmap UUID A) : UUID := fresh (dom table).

(** The keyword arguments of [SocialMediaPost.objects.create], evaluated in
    their order; the first failure is the exception of the item. *)
Definition read_post_data (fromisoformat : FromIsoFormat) (post_data : PostData)
    : string + (string * string * list string * datetime) :=
  match data_platform post_data with
  | None => inl (str (KeyError "platform"))
  | Some platform =>
      match data_content post_data with
      | None => inl (str (KeyError "content"))
      | Some content =>
          match data_scheduled_time post_data with
          | None => inl (str (KeyError "scheduled_time"))
          | Some text =>
              match fromisoformat text with
              | inr message => inl message
              | inl scheduled_time =>
                  inr (platform, content,
                       default [] (data_media_urls post_data), scheduled_time)
              end
          end
      end
  end.

(** The body of the loop: the entry appended to [scheduled_posts]. *)
Definition schedule_post (fromisoformat : FromIsoFormat) (now : datetime)
    (user : UUID) (post_data : PostData) (w : World) : BulkEntry * World :=
  match read_post_data fromisoformat post_data with
  | inl error => (BulkError error post_data, w)
  | inr (platform, content, media_urls, scheduled_time) =>
      let post :=
        SocialMediaPost.mk user platform content media_urls None None
          (Some scheduled_time) None SCHEDULED "" ∅ now in
      let post_id := uuid4 (posts w) in
      let w1 := save_post post_id post w in
      let schedule :=
        SocialMediaSchedule.mk post_id scheduled_time false None 0 3 None "" in
      let schedule_id := uuid4 (schedules w1) in
      (BulkScheduled post_id schedule_id platform scheduled_time,
       save_schedule schedule_id schedule w1)
  end.

Fixpoint schedule_posts (fromisoformat : FromIsoFormat) (now : datetime)
    (user : UUID) (posts_data : list PostData) (w : World)
    : list BulkEntry * World :=
  match posts_data with
  | [] => ([], w)
  | post_data :: rest =>
      let '(entry, w1) := schedule_post fromisoformat now user post_data w in
      let '(entries, w2) := schedule_posts fromisoformat now user rest w1 in
      (entry :: entries, w2)
  end.

Definition bulk_schedule_posts (fromisoformat : FromIsoFormat)
    (users : gset UUID) (now : datetime) (posts_data : list PostData)
    (user_id : UUID) (w : World) : Result (list BulkEntry) * World :=
  if bool_decide (user_id ∈ users) then
    let '(scheduled_posts, w') :=
      schedule_posts fromisoformat now user_id posts_data w in
    (Ok scheduled_posts, w')
  else (Raise (DoesNotExist "User"), w).

(** What [schedule_post] answers for an item. *)
Definition entry_of (fromisoformat : FromIsoFormat) (post_data : PostData)
    (entry : BulkEntry) : Prop :=
  match read_post_data fromisoformat post_data, entry with
  | inl error, BulkError error' post_data' =>
      error' = error ∧ post_data' = post_data
  | inr (platform, _, _, scheduled_time), BulkScheduled _ _ platform' time' =>
      platform' = platform ∧ time' = scheduled_time
  | _, _ => False
  end.

(** A parser that knows one date, second 3600. *)
Definition one_date : FromIsoFormat := λ text,
  if String.eqb text "1970-01-01T01:00:00+00:00" then inl (timedelta.hours 1)
  else inr ("Invalid isoformat string: '" +:+ text +:+ "'").

(** Two items: a complete one and one without [content]. *)
Definition two_items : list PostData :=
  [ {| data_platform := Some "TWITTER"; data_content := Some "gm";
       data_media_urls := None;
       data_scheduled_time := Some "1970-01-01T01:00:00+00:00" |};
    {| data_platform := Some "TWITTER"; data_content := None;
       data_media_urls := None;
       data_scheduled_time := Some "1970-01-01T01:00:00+00:00" |} ].

(** * Proofs *)

(** ** Lists *)

Lemma elem_of_List_filter {A} (f : A → bool) (l : list A) (x : A) :
  x ∈ List.filter f l ↔ f x = true ∧ x ∈ l.
Proof. rewrite !list_elem_of_In, filter_In. tauto. Qed.

(** ** Backoff *)

Section Backoff.

Lemma post_to_social_media_countdown adapter now n post_id w exc countdown w' :
  post_to_social_media adapter now n post_id w
    = (Celery.RetryCalled exc countdown, w') →
  countdown = spec_backoff_delay n.
Proof.
  unfold post_to_social_media, post_to_social_media_except, spec_backoff_delay.
  destruct (get_post w post_id) as [post|e]; [|congruence].
  destruct (post_content _ _); congruence.
Qed.


Lemma retry_redelivers max_retries n exc countdown :
  (n < max_retries)%nat →
  Celery.retry max_retries n exc countdown = Celery.Redelivered (S n) countdown.
Proof.
  intros Hn. unfold Celery.retry.
  replace (n + 1)%nat with (S n) by lia.
  destruct (Nat.ltb_spec max_retries (S n)); [lia | done].
Qed.


End Backoff.



(** ** Aggregate metrics *)

Lemma int_truediv_nonzero a b :
  b ≠ 0 →
  PyFloat.int_truediv a b
  = Ok (PrimFloat.div (PyFloat.of_int a) (PyFloat.of_int b)).
Proof.
  intros Hb. unfold PyFloat.int_truediv.
  destruct (Z.eqb_spec b 0); [lia | done].
Qed.

Lemma float_truediv_int_nonzero x b :
  b ≠ 0 →
  float_truediv_int x b = Ok (PrimFloat.div x (PyFloat.of_int b)).
Proof.
  intros Hb. unfold float_truediv_int.
  destruct (Z.eqb_spec b 0); [lia | done].
Qed.

(** C8, as the code has it. Recording a successful interaction returns
    normally, saves the agent, and leaves: the counter incremented to [n]; the
    average equal to the sample when the old average compares equal to zero
    and to [(oldAvg * (n-1) + sample) / n] otherwise; the success rate equal
    to [successes / n * 100], [successes] counting the stored successful
    interactions of the agent. All in binary64: 1 success out of 2 gives
    [50.0], and the Twitter post with 68 engagements on 1000 impressions has
    engagement rate [6.800000000000001]. *)
Theorem C8_aggregate_metrics now agent_id agent row w :
  AIInteraction.is_successful row = true →
  let n := S (AIAgent.total_interactions agent) in
  let old := AIAgent.average_response_time agent in
  let sample := AIInteraction.response_time row in
  let successes := successful_interactions agent_id (with_interaction row w) in
  (∃ agent' w',
     _record_interaction now agent_id agent row w = (Ok (), agent', w')
     ∧ agents w' !! agent_id = Some agent'
     ∧ AIAgent.total_interactions agent' = n
     ∧ AIAgent.average_response_time agent'
       = (if PrimFloat.eqb old 0 then sample
          else (old * PyFloat.of_int (Z.of_nat n - 1) + sample)
               / PyFloat.of_int (Z.of_nat n))%float
     ∧ AIAgent.success_rate agent'
       = (PyFloat.of_int (Z.of_nat successes) / PyFloat.of_int (Z.of_nat n)
          * PyFloat.of_int 100)%float)
  ∧ (PyFloat.of_int 1 / PyFloat.of_int 2 * PyFloat.of_int 100 = 50)%float
  ∧ SocialMediaPost.engagement_rate a_twitter_post
    = Ok (Float 0x1.b333333333334p+2%float).
Proof.
  intros Hok n old sample successes. split; [|split; reflexivity].
  unfold _record_interaction. rewrite Hok.
  unfold updated_average, updated_success_rate. cbn [AIAgent.average_response_time
    AIAgent.total_interactions AIAgent.name AIAgent.agent_type
    AIAgent.success_rate AIAgent.last_active].
  replace (AIAgent.total_interactions agent + 1)%nat with n by (unfold n; lia).
  fold old sample.
  destruct (PrimFloat.eqb old 0) eqn:Hzero.
  - rewrite int_truediv_nonzero by (unfold n; lia). cbn.
    eexists _, _. split; [reflexivity|].
    cbn. rewrite lookup_insert_eq. done.
  - rewrite float_truediv_int_nonzero by (unfold n; lia).
    rewrite int_truediv_nonzero by (unfold n; lia). cbn.
    eexists _, _. split; [reflexivity|].
    cbn. rewrite lookup_insert_eq. done.
Qed.

Lemma C8_aggregate_metrics_witness :
  AIInteraction.is_successful a_successful_row = true
  ∧ ∃ agent' w',
      _record_interaction 0 5%N a_marketing_agent a_successful_row fresh_agent
        = (Ok (), agent', w')
      ∧ AIAgent.total_interactions agent' = 1%nat.
Proof.
  split; [reflexivity|].
  destruct (C8_aggregate_metrics 0 5%N a_marketing_agent a_successful_row
              fresh_agent eq_refl) as [(agent' & w' & Hrun & _ & Htotal & _) _].
  exists agent', w'. split; [exact Hrun | exact Htotal].
Defined.

(** C8 as worded fails twice. The engagement rate of the Twitter post is the
    double [6.800000000000001], which does not compare equal to [6.8]. And an
    agent whose first interaction failed (counter 1, average still 0) gets,
    after a first success with sample 2.0, the average 2.0, where
    [(oldAvg * (n-1) + sample) / n] is 1.0. *)
Lemma C8_counterexample :
  (∃ rate, SocialMediaPost.engagement_rate a_twitter_post = Ok (Float rate)
           ∧ PrimFloat.eqb rate 6.8 = false)
  ∧ (∃ agent, agents after_one_failure_one_success !! 5%N = Some agent
              ∧ AIAgent.total_interactions agent = 2%nat
              ∧ AIAgent.average_response_time agent = 2%float
              ∧ ((0 * PyFloat.of_int (2 - 1) + 2) / PyFloat.of_int 2 = 1)%float
              ∧ PrimFloat.eqb (AIAgent.average_response_time agent) 1 = false).
Proof.
  split.
  - eexists. split; [vm_compute; reflexivity | reflexivity].
  - eexists. split; [vm_compute; reflexivity|]. repeat split.
Qed.

(** ** Engagement rate *)



(** ** One execution of [post_to_social_media] *)

Section OneExecution.

Variables (adapter : Adapter) (now : datetime) (n : nat) (post_id : UUID).
Variables (w : World) (post : SocialMediaPost.t).
Hypothesis Hpost : posts w !! post_id = Some post.

Lemma post_to_social_media_found :
  post_to_social_media adapter now n post_id w =
    match post_content (adapter (length (adapter_calls w)) (call_of post))
            (call_of post) with
    | Ok result =>
        (Celery.Returned result,
         save_post post_id (with_results now result post)
           (log_call (call_of post) w))
    | Raise e =>
        (Celery.RetryCalled e (60 * 2 ^ Z.of_nat n),
         save_post post_id (SocialMediaPost.mark_failed (str e) post)
           (log_call (call_of post) w))
    end.
Proof.
  unfold post_to_social_media, post_to_social_media_except, get_post.
  rewrite Hpost. destruct (post_content _ _); [done|].
  cbn. by rewrite Hpost.
Qed.

Lemma post_to_social_media_failed exc countdown w' :
  post_to_social_media adapter now n post_id w
    = (Celery.RetryCalled exc countdown, w') →
  w' = save_post post_id (SocialMediaPost.mark_failed (str exc) post)
         (log_call (call_of post) w)
  ∧ post_content (adapter (length (adapter_calls w)) (call_of post)) (call_of post)
    = Raise exc.
Proof.
  rewrite post_to_social_media_found.
  destruct (post_content _ _); intros [= <- <- <-]; done.
Qed.

End OneExecution.


(** C3, as the code has it. A failed attempt of [post_to_social_media] on a
    stored post, final or not, saves the post with status [FAILED] and
    [error_message = str(e)] before it asks for redelivery with countdown
    [60 * 2^n]; below [max_retries] the queue redelivers. No other post and
    no schedule is written. *)
Theorem C3_failed_attempt_marks_failed adapter now n post_id w post exc
    countdown w' :
  posts w !! post_id = Some post →
  post_to_social_media adapter now n post_id w
    = (Celery.RetryCalled exc countdown, w') →
  posts w' !! post_id = Some (SocialMediaPost.mark_failed (str exc) post)
  ∧ countdown = 60 * 2 ^ Z.of_nat n
  ∧ ((n < task_max_retries)%nat →
     Celery.retry task_max_retries n exc countdown
       = Celery.Redelivered (S n) countdown)
  ∧ (∀ other, other ≠ post_id → posts w' !! other = posts w !! other)
  ∧ schedules w' = schedules w.
Proof.
  intros Hpost Hrun.
  pose proof (post_to_social_media_countdown _ _ _ _ _ _ _ _ Hrun) as Hcd.
  apply (post_to_social_media_failed _ _ _ _ _ _ Hpost) in Hrun as [-> _].
  unfold save_post, set_posts, log_call. cbn. split_and!.
  - apply lookup_insert_eq.
  - done.
  - intros Hn. by apply retry_redelivers.
  - intros other Hother. by rewrite lookup_insert_ne.
  - done.
Qed.

Lemma C3_failed_attempt_marks_failed_witness :
  ∃ w',
    posts w' !! 7%N
    = Some (SocialMediaPost.mark_failed "Failed to post to TWITTER: rate limit"
              a_draft_post)
    ∧ Celery.retry task_max_retries 0
        (SocialMediaError "Failed to post to TWITTER: rate limit") 60
      = Celery.Redelivered 1 60.
Proof.
  eexists.
  assert (Hpost : posts one_draft !! 7%N = Some a_draft_post) by reflexivity.
  assert (Hrun : post_to_social_media always_failing 0 0 7%N one_draft
                 = (Celery.RetryCalled
                      (SocialMediaError "Failed to post to TWITTER: rate limit")
                      60,
                    (post_to_social_media always_failing 0 0 7%N one_draft).2))
    by (vm_compute; reflexivity).
  destruct (C3_failed_attempt_marks_failed _ _ _ _ _ _ _ _ _ Hpost Hrun)
    as (Hsaved & _ & Hretry & _).
  split; [exact Hsaved|]. apply Hretry. unfold task_max_retries. lia.
Defined.

(** C3 as worded fails on the first failure of a draft post: with three
    retries still allowed, the record is already written [FAILED] with the
    error message. *)
Lemma C3_counterexample :
  ∃ exc countdown w',
    post_to_social_media always_failing 0 0 7%N one_draft
      = (Celery.RetryCalled exc countdown, w')
    ∧ (0 < task_max_retries)%nat
    ∧ SocialMediaPost.status <$> posts one_draft !! 7%N = Some DRAFT
    ∧ SocialMediaPost.error_message <$> posts one_draft !! 7%N = Some ""
    ∧ SocialMediaPost.status <$> posts w' !! 7%N = Some FAILED
    ∧ SocialMediaPost.error_message <$> posts w' !! 7%N
      = Some "Failed to post to TWITTER: rate limit".
Proof.
  eexists _, _, _. split; [vm_compute; reflexivity|].
  split; [unfold task_max_retries; lia|]. repeat split.
Qed.




(** ** The due-schedule sweep *)

Section Sweep.

Variables (broker : Broker) (now : datetime).

Lemma process_schedule_schedules c w id s p :
  schedules (process_schedule broker now (c, w) (id, s, p)).2
  = <[id := swept broker now s]> (schedules w).
Proof.
  unfold process_schedule, swept.
  destruct (broker _); [|done].
  by case_match.
Qed.

Lemma process_schedule_posts c w id s p :
  posts (process_schedule broker now (c, w) (id, s, p)).2
  = if exhausted broker s
    then <[SocialMediaSchedule.post s :=
             SocialMediaPost.mark_failed
               ("Max retries exceeded: "
                  +:+ from_option str "" (broker (SocialMediaSchedule.post s)))
               p]> (posts w)
    else posts w.
Proof.
  unfold process_schedule, exhausted.
  destruct (broker _); [|done].
  by case_match.
Qed.

Lemma process_schedule_queue c w (row : Row) :
  queue (process_schedule broker now (c, w) row).2
  = queue w ++ (if submitted broker row
                then [post_to_social_media_msg (SocialMediaSchedule.post row.1.2)]
                else [])
  ∧ (process_schedule broker now (c, w) row).1
    = (c + (if submitted broker row then 1 else 0))%nat.
Proof.
  destruct row as [[id s] p]. unfold process_schedule, submitted. cbn.
  destruct (broker _).
  - case_match; cbn; by rewrite app_nil_r, Nat.add_0_r.
  - done.
Qed.

Lemma process_schedule_rest c w (row : Row) :
  webhooks (process_schedule broker now (c, w) row).2 = webhooks w
  ∧ adapter_calls (process_schedule broker now (c, w) row).2 = adapter_calls w.
Proof.
  destruct row as [[id s] p]. unfold process_schedule.
  destruct (broker _); [|done].
  by case_match.
Qed.

(** Schedules outside the selection are not written. *)
Lemma sweep_loop_frame (rows : list Row) acc id :
  id ∉ rows.*1.*1 →
  schedules (foldl (process_schedule broker now) acc rows).2 !! id
  = schedules acc.2 !! id.
Proof.
  revert acc. induction rows as [|[[id' s] p] rows IH]; intros [c w] Hid; [done|].
  cbn in Hid. apply not_elem_of_cons in Hid as [Hne Hid].
  cbn [foldl]. rewrite IH by done.
  destruct (process_schedule broker now (c, w) (id', s, p)) as [c' w'] eqn:Hstep.
  pose proof (process_schedule_schedules c w id' s p) as Hs.
  rewrite Hstep in Hs. cbn in *. rewrite Hs. by rewrite lookup_insert_ne.
Qed.

(** A selected schedule ends as the loop body saved it. *)
Lemma sweep_loop_selected (rows : list Row) acc id s p :
  NoDup rows.*1.*1 →
  (id, s, p) ∈ rows →
  schedules (foldl (process_schedule broker now) acc rows).2 !! id
  = Some (swept broker now s).
Proof.
  revert acc. induction rows as [|[[id' s'] p'] rows IH]; intros [c w] Hnd Hin.
  { by apply elem_of_nil in Hin. }
  cbn in Hnd. apply NoDup_cons in Hnd as [Hfresh Hnd].
  cbn [foldl]. apply elem_of_cons in Hin as [[= <- <- <-]|Hin].
  - rewrite sweep_loop_frame by done.
    destruct (process_schedule broker now (c, w) (id, s, p)) as [c' w'] eqn:Hstep.
    pose proof (process_schedule_schedules c w id s p) as Hs.
    rewrite Hstep in Hs. cbn in *. rewrite Hs. apply lookup_insert_eq.
  - by apply IH.
Qed.

(** The queue grows by the submitted posts, in order, and the counter by
    their number. *)
Lemma sweep_loop_queue (rows : list Row) acc :
  let submitted_rows := List.filter (submitted broker) rows in
  queue (foldl (process_schedule broker now) acc rows).2
  = queue acc.2
    ++ ((λ row : Row, post_to_social_media_msg (SocialMediaSchedule.post row.1.2))
          <$> submitted_rows)
  ∧ (foldl (process_schedule broker now) acc rows).1
    = (acc.1 + length submitted_rows)%nat.
Proof.
  revert acc. induction rows as [|row rows IH]; intros [c w].
  { cbn. by rewrite app_nil_r, Nat.add_0_r. }
  cbn [foldl List.filter].
  destruct (process_schedule broker now (c, w) row) as [c' w'] eqn:Hstep.
  destruct (IH (c', w')) as [Hq Hc]. cbn zeta in *. rewrite Hq, Hc.
  destruct (process_schedule_queue c w row) as [Hq1 Hc1].
  rewrite Hstep in Hq1, Hc1. cbn in *. rewrite Hq1, Hc1.
  destruct (submitted broker row); cbn.
  - rewrite <- app_assoc. split; [done | lia].
  - rewrite app_nil_r. split; [done | lia].
Qed.

(** Posts are left alone or saved as failed. *)
Lemma sweep_loop_posts (rows : list Row) acc post_id p :
  posts acc.2 !! post_id = Some p →
  ∃ p', posts (foldl (process_schedule broker now) acc rows).2 !! post_id
        = Some p'
        ∧ (p' = p ∨ SocialMediaPost.status p' = FAILED).
Proof.
  revert acc p. induction rows as [|[[id s] q] rows IH]; intros [c w] p Hp.
  { exists p. by split; [|left]. }
  cbn [foldl].
  destruct (process_schedule broker now (c, w) (id, s, q)) as [c' w'] eqn:Hstep.
  pose proof (process_schedule_posts c w id s q) as Hposts.
  rewrite Hstep in Hposts. cbn in Hposts, Hp.
  destruct (exhausted broker s).
  - destruct (decide (SocialMediaSchedule.post s = post_id)) as [<-|Hne].
    + destruct (IH (c', w') (SocialMediaPost.mark_failed
                  ("Max retries exceeded: "
                     +:+ from_option str "" (broker (SocialMediaSchedule.post s)))
                  q)) as (p' & Hp' & Hcase).
      { cbn. rewrite Hposts. apply lookup_insert_eq. }
      exists p'. split; [done|]. right. by destruct Hcase as [->|?].
    + apply (IH (c', w')). cbn. rewrite Hposts. by rewrite lookup_insert_ne.
  - apply (IH (c', w')). cbn. by rewrite Hposts.
Qed.

End Sweep.

Section DueQuery.

Variables (now : datetime) (w : World).

Lemma elem_of_due_schedules id s p :
  (id, s, p) ∈ due_schedules now w
  ↔ schedules w !! id = Some s
    ∧ SocialMediaSchedule.scheduled_time s ≤ now
    ∧ SocialMediaSchedule.is_processed s = false
    ∧ posts w !! SocialMediaSchedule.post s = Some p.
Proof.
  unfold due_schedules. rewrite merge_sort_Permutation, list_elem_of_omap.
  split.
  - intros ([id' s'] & Hin & Hrow). apply elem_of_map_to_list in Hin.
    unfold due_row in Hrow. cbn in Hrow.
    destruct (Z.leb_spec (SocialMediaSchedule.scheduled_time s') now);
      [|done].
    destruct (SocialMediaSchedule.is_processed s') eqn:Hproc; [done|].
    cbn in Hrow.
    destruct (posts w !! SocialMediaSchedule.post s') as [p'|] eqn:Hp; [|done].
    cbn in Hrow. injection Hrow as <- <- <-. done.
  - intros (Hs & Hdue & Hproc & Hp). exists (id, s). split.
    + by apply elem_of_map_to_list.
    + unfold due_row. cbn. rewrite Hproc, Hp.
      destruct (Z.leb_spec (SocialMediaSchedule.scheduled_time s) now);
        [done | lia].
Qed.

Lemma due_row_key kv row : due_row now w kv = Some row → row.1 = kv.
Proof.
  unfold due_row. case_match; [|done].
  destruct (posts w !! _); [|done]. by intros [= <-].
Qed.

Lemma due_rows_sublist (l : list (UUID * SocialMediaSchedule.t)) :
  (omap (due_row now w) l).*1 `sublist_of` l.
Proof.
  induction l as [|kv l IH]; [done|]. cbn.
  destruct (due_row now w kv) as [row|] eqn:Hrow.
  - cbn. rewrite (due_row_key _ _ Hrow). by apply sublist_skip.
  - by apply sublist_cons.
Qed.

Lemma NoDup_due_schedules : NoDup (due_schedules now w).*1.*1.
Proof.
  unfold due_schedules. rewrite merge_sort_Permutation.
  apply (sublist_NoDup _ (map_to_list (schedules w)).*1).
  - apply NoDup_fst_map_to_list.
  - apply fmap_sublist, due_rows_sublist.
Qed.

End DueQuery.

(** C6. A run of [process_scheduled_posts] at [now] selects exactly the
    schedule entries with [scheduled_time <= now] and [is_processed = False]
    (each with its post); for every selected entry whose submission goes
    through, the post is put on the queue and the entry is saved with
    [is_processed = True] and [processed_at = now], nothing else in it
    changed; entries that are processed already or not yet due are left as
    they were; the run returns the number of entries submitted, which is the
    number of messages it added to the queue. *)
Theorem C6_due_schedule_sweep broker now w :
  let run := process_scheduled_posts broker now w in
  let submitted_rows := List.filter (submitted broker) (due_schedules now w) in
  (∀ id s p,
     (id, s, p) ∈ due_schedules now w
     ↔ schedules w !! id = Some s
       ∧ SocialMediaSchedule.scheduled_time s ≤ now
       ∧ SocialMediaSchedule.is_processed s = false
       ∧ posts w !! SocialMediaSchedule.post s = Some p)
  ∧ (∀ id s p,
       (id, s, p) ∈ due_schedules now w →
       broker (SocialMediaSchedule.post s) = None →
       post_to_social_media_msg (SocialMediaSchedule.post s) ∈ queue run.2
       ∧ schedules run.2 !! id
         = Some (SocialMediaSchedule.mk (SocialMediaSchedule.post s)
                   (SocialMediaSchedule.scheduled_time s) true (Some now)
                   (SocialMediaSchedule.retry_count s)
                   (SocialMediaSchedule.max_retries s)
                   (SocialMediaSchedule.next_retry s)
                   (SocialMediaSchedule.error_message s)))
  ∧ (∀ id s,
       schedules w !! id = Some s →
       SocialMediaSchedule.is_processed s = true
       ∨ now < SocialMediaSchedule.scheduled_time s →
       schedules run.2 !! id = Some s)
  ∧ queue run.2
    = queue w
      ++ ((λ row : Row, post_to_social_media_msg (SocialMediaSchedule.post row.1.2))
            <$> submitted_rows)
  ∧ run.1 = length submitted_rows.
Proof.
  intros run submitted_rows. subst run. unfold process_scheduled_posts.
  destruct (sweep_loop_queue broker now (due_schedules now w) (0%nat, w))
    as [Hqueue Hcount]. cbn zeta in *. cbn [fst snd] in *.
  split_and!.
  - apply elem_of_due_schedules.
  - intros id s p Hin Hok. split.
    + rewrite Hqueue. apply elem_of_app. right.
      apply list_elem_of_fmap. exists (id, s, p). split; [done|].
      apply elem_of_List_filter. split; [|done].
      unfold submitted. cbn. by rewrite Hok.
    + rewrite (sweep_loop_selected broker now _ _ id s p);
        [|apply NoDup_due_schedules|done].
      unfold swept. by rewrite Hok.
  - intros id s Hs Hout. rewrite sweep_loop_frame; [done|].
    intros Hin. apply list_elem_of_fmap in Hin as ([id' s'] & -> & Hin).
    apply list_elem_of_fmap in Hin as ([[id'' s''] p] & [= <- <-] & Hin).
    apply elem_of_due_schedules in Hin as (Hs' & Hdue & Hproc & _).
    cbn in Hs. rewrite Hs in Hs'. injection Hs' as <-.
    destruct Hout as [Hout|Hout]; [congruence | lia].
  - done.
  - done.
Qed.

Lemma C6_due_schedule_sweep_witness :
  let run := process_scheduled_posts broker_up an_hour_in two_scheduled in
  run.1 = 1%nat
  ∧ queue run.2 = [post_to_social_media_msg 7]
  ∧ schedules run.2 !! 70%N
    = Some (SocialMediaSchedule.mk 7 (timedelta.minutes 30) true
              (Some an_hour_in) 0 3 None "")
  ∧ schedules run.2 !! 80%N = Some a_future_schedule.
Proof.
  destruct (C6_due_schedule_sweep broker_up an_hour_in two_scheduled)
    as (Hselect & Hdone & Hframe & Hqueue & Hcount).
  cbv zeta. split_and!.
  - rewrite Hcount. vm_compute. reflexivity.
  - rewrite Hqueue. vm_compute. reflexivity.
  - apply (Hdone 70%N a_due_schedule a_due_post); [|reflexivity].
    apply Hselect. split_and!; try reflexivity. vm_compute. discriminate.
  - apply Hframe; [reflexivity|]. right. vm_compute. reflexivity.
Defined.

(** ** Status along a history *)

Lemma settled_refl p : settled p p.
Proof. by left. Qed.


Lemma mark_failed_settled message p q :
  settled p (SocialMediaPost.mark_failed message q).
Proof. right. by right. Qed.

Lemma mark_published_settled now p q :
  settled p (SocialMediaPost.mark_published now q).
Proof. right. by left. Qed.

Lemma post_to_social_media_missing adapter now n post_id w :
  posts w !! post_id = None →
  (post_to_social_media adapter now n post_id w).2 = w.
Proof.
  intros Hnone. unfold post_to_social_media, post_to_social_media_except, get_post.
  by rewrite Hnone.
Qed.

Lemma post_to_social_media_settled adapter now n post_id w id p :
  posts w !! id = Some p →
  ∃ p', posts (post_to_social_media adapter now n post_id w).2 !! id = Some p'
        ∧ settled p p'.
Proof.
  intros Hp. destruct (posts w !! post_id) as [post|] eqn:Hpost.
  - rewrite (post_to_social_media_found _ _ _ _ _ _ Hpost).
    destruct (decide (id = post_id)) as [->|Hne].
    + destruct (post_content _ _); unfold save_post, set_posts, log_call; cbn;
        rewrite lookup_insert_eq; eexists; (split; [done|]).
      * apply mark_published_settled.
      * apply mark_failed_settled.
    + exists p. split; [|apply settled_refl].
      destruct (post_content _ _); unfold save_post, set_posts, log_call; cbn;
        by rewrite lookup_insert_ne.
  - rewrite post_to_social_media_missing by done.
    exists p. split; [done | apply settled_refl].
Qed.

Lemma post_to_social_media_schedules adapter now n post_id w :
  schedules (post_to_social_media adapter now n post_id w).2 = schedules w.
Proof.
  destruct (posts w !! post_id) as [post|] eqn:Hpost.
  - rewrite (post_to_social_media_found _ _ _ _ _ _ Hpost).
    by destruct (post_content _ _).
  - by rewrite post_to_social_media_missing.
Qed.

Lemma handle_webhook_event_effect now data w w' :
  handle_webhook_event now data w = Ok w' →
  schedules w' = schedules w
  ∧ webhooks w' = webhooks w
  ∧ (posts w' = posts w
     ∨ ∃ post_id post, posts w !! post_id = Some post
         ∧ posts w' = <[post_id := SocialMediaPost.mark_published now post]> (posts w)).
Proof.
  unfold handle_webhook_event.
  destruct (String.eqb _ _).
  - destruct (wd_data data !! "post_id") as [platform_post_id|]; [|done].
    unfold get_post_by_platform_post_id.
    destruct (List.filter _ _) as [|[post_id post] [|]] eqn:Hfound; cbn.
    + intros [= <-]. auto.
    + intros [= <-]. split_and!; [done..|]. right. exists post_id, post.
      split; [|done].
      assert (Hin : (post_id, post) ∈ List.filter
                (λ kv, bool_decide (SocialMediaPost.platform_post_id kv.2
                                    = Some platform_post_id))
                (map_to_list (posts w))) by (rewrite Hfound; left).
      apply elem_of_List_filter in Hin as [_ Hin].
      by apply elem_of_map_to_list in Hin.
    + done.
  - destruct (bool_decide _); [|intros [= <-]; auto].
    destruct (wd_data data !! "post_id") as [platform_post_id|]; [|done].
    destruct (get_post_by_platform_post_id w platform_post_id) as [?|[]];
      try done; intros [= <-]; auto.
Qed.

Lemma process_social_webhooks_effect webhook_id now data w :
  let w' := (process_social_webhooks webhook_id now data w).2 in
  schedules w' = schedules w
  ∧ (posts w' = posts w
     ∨ ∃ post_id post, posts w !! post_id = Some post
         ∧ posts w' = <[post_id := SocialMediaPost.mark_published now post]> (posts w)).
Proof.
  unfold process_social_webhooks.
  destruct (handle_webhook_event _ _ _) as [w2|e] eqn:Hevent; cbn; [|auto].
  apply handle_webhook_event_effect in Hevent as (Hs & _ & Hp). cbn in *.
  auto.
Qed.

Lemma step_settled w ev id p :
  posts w !! id = Some p →
  ∃ p', posts (step w ev) !! id = Some p' ∧ settled p p'.
Proof.
  intros Hp. destruct ev as [adapter now n post_id|broker now|webhook_id now data].
  - by apply post_to_social_media_settled.
  - cbn. unfold process_scheduled_posts.
    destruct (sweep_loop_posts broker now (due_schedules now w) (0%nat, w) id p Hp)
      as (p' & Hp' & [->|Hfailed]).
    + exists p. split; [done | apply settled_refl].
    + exists p'. split; [done|]. right. by right.
  - cbn. destruct (process_social_webhooks_effect webhook_id now data w)
      as [_ [Hsame|(post_id & post & Hpost & Hposts)]].
    + rewrite Hsame. exists p. split; [done | apply settled_refl].
    + rewrite Hposts. destruct (decide (id = post_id)) as [->|Hne].
      * rewrite lookup_insert_eq. eexists. split; [done|].
        apply mark_published_settled.
      * rewrite lookup_insert_ne by done.
        exists p. split; [done | apply settled_refl].
Qed.





(** ** Submission failures in the sweep *)

Section SweepFailures.

Variables (broker : Broker) (now : datetime).

(** Once a post is saved as failed by the loop, later rows for the same post
    can only save the same value again. *)
Lemma sweep_loop_failed_kept (rows : list Row) acc post_id failed :
  (∀ id s p, (id, s, p) ∈ rows →
     SocialMediaSchedule.post s = post_id →
     SocialMediaPost.mark_failed
       ("Max retries exceeded: " +:+ from_option str "" (broker post_id)) p
     = failed) →
  posts acc.2 !! post_id = Some failed →
  posts (foldl (process_schedule broker now) acc rows).2 !! post_id = Some failed.
Proof.
  revert acc. induction rows as [|[[id s] p] rows IH]; intros [c w] Hsame Hp;
    [done|].
  cbn [foldl]. apply IH.
  { intros id' s' p' Hin. apply (Hsame id'). by right. }
  destruct (process_schedule broker now (c, w) (id, s, p)) as [c' w'] eqn:Hstep.
  pose proof (process_schedule_posts broker now c w id s p) as Hposts.
  rewrite Hstep in Hposts. cbn in *. rewrite Hposts.
  destruct (exhausted broker s); [|done].
  destruct (decide (SocialMediaSchedule.post s = post_id)) as [Heq|Hne].
  - rewrite Heq, lookup_insert_eq. f_equal. apply (Hsame id s p); [by left|done].
  - by rewrite lookup_insert_ne.
Qed.

Lemma sweep_loop_failed (rows : list Row) acc id s p e :
  (∀ id' s' p', (id', s', p') ∈ rows →
     SocialMediaSchedule.post s' = SocialMediaSchedule.post s → p' = p) →
  (id, s, p) ∈ rows →
  broker (SocialMediaSchedule.post s) = Some e →
  exhausted broker s = true →
  posts (foldl (process_schedule broker now) acc rows).2
    !! SocialMediaSchedule.post s
  = Some (SocialMediaPost.mark_failed ("Max retries exceeded: " +:+ str e) p).
Proof.
  intros Hsnap Hin He Hex.
  assert (Hsame : ∀ rows' : list Row, (∀ r, r ∈ rows' → r ∈ rows) →
            ∀ id' s' p', (id', s', p') ∈ rows' →
              SocialMediaSchedule.post s' = SocialMediaSchedule.post s →
              SocialMediaPost.mark_failed
                ("Max retries exceeded: "
                   +:+ from_option str "" (broker (SocialMediaSchedule.post s))) p'
              = SocialMediaPost.mark_failed ("Max retries exceeded: " +:+ str e) p).
  { intros rows' Hsub id' s' p' Hin' Hpost.
    rewrite (Hsnap id' s' p' (Hsub _ Hin') Hpost), He. done. }
  clear Hsnap. revert acc Hin Hsame.
  induction rows as [|[[id' s'] p'] rows IH]; intros [c w] Hin Hsame.
  { by apply elem_of_nil in Hin. }
  cbn [foldl]. apply elem_of_cons in Hin as [[= <- <- <-]|Hin].
  - apply sweep_loop_failed_kept.
    + apply (Hsame rows). intros r Hr. by right.
    + destruct (process_schedule broker now (c, w) (id, s, p)) as [c' w'] eqn:Hstep.
      pose proof (process_schedule_posts broker now c w id s p) as Hposts.
      rewrite Hstep, Hex, He in Hposts. cbn in *. rewrite Hposts.
      apply lookup_insert_eq.
  - apply IH; [done|]. intros rows' Hsub. apply Hsame.
    intros r Hr. right. by apply Hsub.
Qed.

End SweepFailures.





(** The due query does not read [next_retry]: an entry whose submission
    failed at [now] is selected again by a sweep one minute later, four
    minutes before its [next_retry]. *)
Remark retry_selected_before_next_retry :
  let w' := (process_scheduled_posts broker_down an_hour_in two_scheduled).2 in
  SocialMediaSchedule.next_retry <$> schedules w' !! 70%N
  = Some (Some (an_hour_in + timedelta.minutes 5))
  ∧ ∃ s p, (70%N, s, p) ∈ due_schedules (an_hour_in + timedelta.minutes 1) w'.
Proof.
  cbv zeta. split; [reflexivity|]. eexists _, _.
  apply elem_of_due_schedules. split_and!; try reflexivity.
  vm_compute. discriminate.
Qed.

(** ** The worker's redeliveries *)

Section Redeliveries.

Context {R State : Type}.
Variable task : datetime → nat → State → Celery.TaskExit R * State.
Variable max_retries : nat.




End Redeliveries.

(** ** Retry bounds *)

Lemma sweep_schedules_inv broker now w id s' :
  schedules (process_scheduled_posts broker now w).2 !! id = Some s' →
  ∃ s, schedules w !! id = Some s ∧ (s' = s ∨ s' = swept broker now s).
Proof.
  unfold process_scheduled_posts.
  destruct (decide (id ∈ (due_schedules now w).*1.*1)) as [Hin|Hout].
  - apply list_elem_of_fmap in Hin as ([id' s] & -> & Hin).
    apply list_elem_of_fmap in Hin as ([[id'' s''] p] & [= <- <-] & Hin).
    rewrite (sweep_loop_selected broker now _ _ id' s p
               (NoDup_due_schedules now w) Hin).
    intros [= <-]. exists s. split; [|by right].
    by apply elem_of_due_schedules in Hin as (? & _).
  - rewrite sweep_loop_frame by done. intros Hs. exists s'. by split; [|left].
Qed.







(** The four executions of a post the platform keeps rejecting: at the start,
    then 60 s, 120 s and 240 s after the previous failure. *)
Example redelivery_times :
  Celery.exec_at <$> (deliver_post always_failing 3 0 7%N one_draft).1.1
  = [0; timedelta.seconds 60; timedelta.seconds (60 + 120);
     timedelta.seconds (60 + 120 + 240)].
Proof. reflexivity. Qed.

(** ** Retention *)

Lemma size_filter_bool {A} (f : UUID * A → bool) (m : gmap UUID A) :
  (size (filter (λ kv, f kv = true) m) + size (filter (λ kv, f kv = false) m)
   = size m)%nat.
Proof.
  assert (Hcompl : filter (λ kv, f kv = false) m
                   = filter (λ kv, ¬ f kv = true) m).
  { apply map_filter_ext. intros i x _. by destruct (f (i, x)). }
  rewrite Hcompl, <- map_size_disj_union
    by apply (map_disjoint_filter_complement (λ kv, f kv = true)).
  by rewrite (map_filter_union_complement (λ kv, f kv = true)).
Qed.

Lemma failed_before_true cutoff p :
  failed_before cutoff p = true
  ↔ SocialMediaPost.status p = FAILED ∧ SocialMediaPost.created_at p < cutoff.
Proof.
  unfold failed_before.
  rewrite andb_true_iff, bool_decide_eq_true, Z.ltb_lt. done.
Qed.

Lemma processed_before_true bound s :
  processed_before bound s = true
  ↔ SocialMediaSchedule.is_processed s = true
    ∧ ∃ at_, SocialMediaSchedule.processed_at s = Some at_ ∧ at_ < bound.
Proof.
  unfold processed_before. rewrite andb_true_iff.
  destruct (SocialMediaSchedule.processed_at s) as [at_|].
  - rewrite Z.ltb_lt. split.
    + intros [? ?]. eauto.
    + intros [? (? & [= <-] & ?)]. done.
  - split; [intros [_ [=]] | intros [_ (? & [=] & _)]].
Qed.

(** C9, as the code has it. [cleanup_failed_posts] at [now] removes exactly
    the posts that are [FAILED] and created strictly before [now - 30 days];
    with each such post go, by cascade, the schedule entries and webhooks
    bound to it, whatever their age; of the remaining schedule entries it
    removes exactly those processed strictly before [now - 7 days]. A post
    created exactly 30 days ago, or an entry processed exactly 7 days ago, is
    kept. The report counts the posts removed and the entries removed for
    their age; entries and webhooks that went with their post are not
    counted. *)
Theorem C9_retention_sweep now w :
  let run := cleanup_failed_posts now w in
  let too_old (p : SocialMediaPost.t) :=
    SocialMediaPost.status p = FAILED
    ∧ SocialMediaPost.created_at p < now - timedelta.days 30 in
  let orphaned (post_id : UUID) := ∃ p, posts w !! post_id = Some p ∧ too_old p in
  let stale (s : SocialMediaSchedule.t) :=
    SocialMediaSchedule.is_processed s = true
    ∧ ∃ at_, SocialMediaSchedule.processed_at s = Some at_
             ∧ at_ < now - timedelta.days 7 in
  (∀ id p, posts run.2 !! id = Some p ↔ posts w !! id = Some p ∧ ¬ too_old p)
  ∧ (∀ id s, schedules run.2 !! id = Some s
             ↔ schedules w !! id = Some s
               ∧ ¬ orphaned (SocialMediaSchedule.post s) ∧ ¬ stale s)
  ∧ (∀ id h, webhooks run.2 !! id = Some h
             ↔ webhooks w !! id = Some h
               ∧ ¬ ∃ post_id, SocialMediaWebhook.post h = Some post_id
                              ∧ orphaned post_id)
  ∧ (failed_posts_cleaned run.1 + size (posts run.2) = size (posts w))%nat
  ∧ (schedules_cleaned run.1 + size (schedules run.2)
     + size (filter (λ kv, points_at (failed_before (now - timedelta.days 30)) w
                             (SocialMediaSchedule.post kv.2) = true)
               (schedules w))
     = size (schedules w))%nat.
Proof.
  intros run too_old orphaned stale. subst run. unfold cleanup_failed_posts.
  cbn [fst snd failed_posts_cleaned schedules_cleaned].
  unfold set_schedules, delete_posts.
  cbn [posts schedules webhooks queue adapter_calls].
  set (cutoff := now - timedelta.days 30).
  set (bound := now - timedelta.days 7).
  set (gone := points_at (failed_before cutoff) w).
  assert (Hgone : ∀ post_id, gone post_id = false ↔ ¬ orphaned post_id).
  { intros post_id. unfold gone, points_at, orphaned, too_old. fold cutoff.
    destruct (posts w !! post_id) as [p|].
    - rewrite <- not_true_iff_false, failed_before_true. split.
      + intros Hn (p' & [= <-] & Hp'). done.
      + intros Hn Hp. apply Hn. eauto.
    - split; [intros _ (? & [=] & _) | done]. }
  split_and!.
  - intros id p. rewrite map_lookup_filter_Some. cbn.
    by rewrite <- not_true_iff_false, failed_before_true.
  - intros id s. rewrite !map_lookup_filter_Some. cbn.
    rewrite Hgone, <- not_true_iff_false, processed_before_true.
    unfold stale. fold bound. tauto.
  - intros id h. rewrite map_lookup_filter_Some. cbn.
    destruct (SocialMediaWebhook.post h) as [post_id|]; cbn.
    + rewrite Hgone. split.
      * intros [? Hn]. split; [done|]. intros (? & [= <-] & ?). done.
      * intros [? Hn]. split; [done|]. intros ?. apply Hn. eauto.
    + split; [|tauto]. intros [? _]. split; [done|]. intros (? & [=] & _).
  - apply (size_filter_bool (λ kv, failed_before cutoff kv.2)).
  - rewrite (size_filter_bool (λ kv, processed_before bound kv.2)).
    rewrite Nat.add_comm.
    apply (size_filter_bool (λ kv, gone (SocialMediaSchedule.post kv.2))).
Qed.

(** [cleanup_ai_interactions] filters on [created_at], a field that
    [AIInteraction] does not have: the query raises and no row is removed. *)
Lemma cleanup_ai_interactions_raises now w :
  cleanup_ai_interactions now w
  = (Raise (FieldError "created_at" "AIInteraction"), w).
Proof. reflexivity. Qed.

(** C9 as worded fails on day 31 for a failed post of day 0 whose schedule
    entry was processed on day 28: the entry, three days old, is removed with
    its post, and the report counts one post and no entry. (Nor does
    [cleanup_ai_interactions] remove an interaction 91 days old.) *)
Lemma C9_counterexample :
  let now := timedelta.days 31 in
  let run := cleanup_failed_posts now one_failed in
  schedules one_failed !! 70%N = Some its_schedule
  ∧ SocialMediaSchedule.processed_at its_schedule = Some (now - timedelta.days 3)
  ∧ ¬ (now - timedelta.days 3 < now - timedelta.days 7)
  ∧ posts run.2 !! 7%N = None
  ∧ schedules run.2 !! 70%N = None
  ∧ failed_posts_cleaned run.1 = 1%nat
  ∧ schedules_cleaned run.1 = 0%nat
  ∧ AIInteraction.timestamp an_old_interaction
    < timedelta.days 91 - timedelta.days 90
  ∧ cleanup_ai_interactions (timedelta.days 91) one_old_interaction
    = (Raise (FieldError "created_at" "AIInteraction"), one_old_interaction).
Proof.
  cbv zeta. split_and!; try (vm_compute; reflexivity).
  vm_compute. discriminate.
Qed.

Lemma C9_retention_sweep_witness :
  posts (cleanup_failed_posts (timedelta.days 31) one_draft).2 !! 7%N
  = Some a_draft_post.
Proof.
  apply (proj1 (C9_retention_sweep (timedelta.days 31) one_draft)).
  split; [reflexivity|]. intros [Hfailed _]. discriminate Hfailed.
Defined.

(** * Further properties *)

(** ** Redelivery times *)

Section RedeliveryTimes.

Context {R State : Type}.
Variable task : datetime → nat → State → Celery.TaskExit R * State.
Variable max_retries : nat.
Hypothesis task_backoff : ∀ now n s exc countdown s',
  task now n s = (Celery.RetryCalled exc countdown, s') →
  countdown = 60 * 2 ^ Z.of_nat n.


End RedeliveryTimes.



(** ** What a whole run leaves behind *)

Section RunLemmas.

Context {R State : Type}.
Variable task : datetime → nat → State → Celery.TaskExit R * State.
Variable max_retries : nat.
Variable I : State → Prop.
Hypothesis I_kept : ∀ now n s, I s → I (task now n s).2.

Lemma run_invariant fuel now retries s :
  I s → I (Celery.run task max_retries fuel now retries s).2.
Proof.
  revert now retries s. induction fuel as [|fuel IH]; intros now retries s HI;
    cbn [Celery.run]; pose proof (I_kept now retries s HI) as HI1;
    destruct (task now retries s) as [[r|exc countdown] s1];
    cbn in *; try done;
    destruct (Celery.retry _ _ _ _); cbn; try done.
  specialize (IH (now + timedelta.seconds countdown0) retries0 s1 HI1).
  by destruct (Celery.run _ _ _ _ _ _) as [[rest e] s2].
Qed.




End RunLemmas.






Lemma post_to_social_media_missing_exit adapter now n post_id w :
  posts w !! post_id = None →
  post_to_social_media adapter now n post_id w
  = (Celery.RetryCalled (DoesNotExist "SocialMediaPost") (60 * 2 ^ Z.of_nat n), w).
Proof.
  intros Hnone. unfold post_to_social_media, post_to_social_media_except, get_post.
  by rewrite Hnone.
Qed.

(** A task that keeps raising the same exception without touching the state
    is executed until [max_retries] is reached. *)
Lemma run_stuck {R State : Type}
    (task : datetime → nat → State → Celery.TaskExit R * State)
    (max_retries : nat) (exc : Exn) (countdown : nat → Z) (s : State)
    fuel now retries :
  (∀ now n, task now n s = (Celery.RetryCalled exc (countdown n), s)) →
  (retries ≤ max_retries)%nat →
  (max_retries - retries ≤ fuel)%nat →
  (Celery.run task max_retries fuel now retries s).2 = s
  ∧ (Celery.run task max_retries fuel now retries s).1.2 = Celery.GaveUp exc
  ∧ length (Celery.run task max_retries fuel now retries s).1.1
    = (max_retries + 1 - retries)%nat.
Proof.
  intros Htask. revert now retries.
  induction fuel as [|fuel IH]; intros now retries Hle Hfuel;
    cbn [Celery.run]; rewrite Htask; unfold Celery.retry;
    destruct (Nat.ltb_spec max_retries (retries + 1)); cbn;
    try (split_and!; [done..|lia]); try lia.
  specialize (IH (now + timedelta.seconds (countdown retries)) (retries + 1)%nat).
  destruct (Celery.run _ _ _ _ _ _) as [[rest e] s2]. cbn in *.
  destruct IH as (-> & -> & ->); [lia..|]. split_and!; [done..|lia].
Qed.

(** X4. For a post id that is not stored, the worker still makes all four
    executions of [post_to_social_media], each raising
    [SocialMediaPost.DoesNotExist]; the adapter is never called, nothing is
    written, and the run gives up with that exception. *)
Theorem missing_post_is_retried adapter fuel now post_id w :
  posts w !! post_id = None →
  (3 ≤ fuel)%nat →
  let run := deliver_post adapter fuel now post_id w in
  run.2 = w
  ∧ run.1.2 = Celery.GaveUp (DoesNotExist "SocialMediaPost")
  ∧ length run.1.1 = 4%nat.
Proof.
  intros Hnone Hfuel run. subst run. unfold deliver_post.
  apply (run_stuck _ task_max_retries (DoesNotExist "SocialMediaPost")
           (λ n, 60 * 2 ^ Z.of_nat n)).
  - intros t n. by apply post_to_social_media_missing_exit.
  - lia.
  - unfold task_max_retries. lia.
Qed.

Lemma missing_post_is_retried_witness :
  (deliver_post always_posting 3 0 9%N one_draft).2 = one_draft.
Proof.
  apply (missing_post_is_retried always_posting 3 0 9%N one_draft);
    [reflexivity | lia].
Defined.

(** ** More on the due-schedule sweep *)

Section SweepFrame.

Variables (broker : Broker) (now : datetime).

Lemma sweep_loop_rest (rows : list Row) acc :
  webhooks (foldl (process_schedule broker now) acc rows).2 = webhooks acc.2
  ∧ adapter_calls (foldl (process_schedule broker now) acc rows).2
    = adapter_calls acc.2.
Proof.
  revert acc. induction rows as [|row rows IH]; intros [c w]; [done|].
  cbn [foldl].
  destruct (process_schedule broker now (c, w) row) as [c' w'] eqn:Hstep.
  destruct (IH (c', w')) as [Hw Ha]. rewrite Hw, Ha.
  destruct (process_schedule_rest broker now c w row) as [Hw1 Ha1].
  by rewrite Hstep in Hw1, Ha1.
Qed.

Lemma sweep_loop_posts_kept (rows : list Row) acc :
  (∀ id s p, (id, s, p) ∈ rows → exhausted broker s = false) →
  posts (foldl (process_schedule broker now) acc rows).2 = posts acc.2.
Proof.
  revert acc. induction rows as [|[[id s] p] rows IH]; intros [c w] Hnone;
    [done|].
  cbn [foldl].
  destruct (process_schedule broker now (c, w) (id, s, p)) as [c' w'] eqn:Hstep.
  rewrite IH by (intros id' s' p' Hin; apply (Hnone id' s' p'); by right).
  pose proof (process_schedule_posts broker now c w id s p) as Hposts.
  rewrite Hstep in Hposts. cbn in *. rewrite Hposts.
  by rewrite (Hnone id s p) by left.
Qed.

Lemma sweep_loop_posts_absent (rows : list Row) acc post_id :
  (∀ id s p, (id, s, p) ∈ rows → SocialMediaSchedule.post s ≠ post_id) →
  posts (foldl (process_schedule broker now) acc rows).2 !! post_id
  = posts acc.2 !! post_id.
Proof.
  revert acc. induction rows as [|[[id s] p] rows IH]; intros [c w] Hother;
    [done|].
  cbn [foldl].
  destruct (process_schedule broker now (c, w) (id, s, p)) as [c' w'] eqn:Hstep.
  rewrite IH by (intros id' s' p' Hin; apply (Hother id' s' p'); by right).
  pose proof (process_schedule_posts broker now c w id s p) as Hposts.
  rewrite Hstep in Hposts. cbn in *. rewrite Hposts.
  destruct (exhausted broker s); [|done].
  rewrite lookup_insert_ne; [done|]. apply (Hother id s p). by left.
Qed.

End SweepFrame.

Lemma swept_keeps broker now s :
  SocialMediaSchedule.post (swept broker now s) = SocialMediaSchedule.post s
  ∧ SocialMediaSchedule.scheduled_time (swept broker now s)
    = SocialMediaSchedule.scheduled_time s
  ∧ SocialMediaSchedule.max_retries (swept broker now s)
    = SocialMediaSchedule.max_retries s.
Proof.
  unfold swept. destruct (broker _); [|done]. by case_match.
Qed.

Lemma sweep_schedules_fwd broker now w id s :
  schedules w !! id = Some s →
  schedules (process_scheduled_posts broker now w).2 !! id = Some s
  ∨ schedules (process_scheduled_posts broker now w).2 !! id
    = Some (swept broker now s).
Proof.
  intros Hs. unfold process_scheduled_posts.
  destruct (decide (id ∈ (due_schedules now w).*1.*1)) as [Hin|Hout].
  - apply list_elem_of_fmap in Hin as ([id' s'] & -> & Hin).
    apply list_elem_of_fmap in Hin as ([[id'' s''] p] & [= <- <-] & Hin).
    right. rewrite (sweep_loop_selected broker now _ _ id' s' p
                      (NoDup_due_schedules now w) Hin).
    apply elem_of_due_schedules in Hin as (Hs' & _). cbn in Hs. congruence.
  - left. by rewrite sweep_loop_frame.
Qed.

(** X5. The sweep creates and deletes no row, never calls the adapter and
    never touches a webhook; an entry keeps its post, its scheduled time and
    its [max_retries]; and when every submission goes through no post is
    written. *)
Theorem sweep_frame broker now w :
  let w' := (process_scheduled_posts broker now w).2 in
  webhooks w' = webhooks w
  ∧ adapter_calls w' = adapter_calls w
  ∧ (∀ id, is_Some (posts w' !! id) ↔ is_Some (posts w !! id))
  ∧ (∀ id, is_Some (schedules w' !! id) ↔ is_Some (schedules w !! id))
  ∧ (∀ id s s', schedules w !! id = Some s → schedules w' !! id = Some s' →
       SocialMediaSchedule.post s' = SocialMediaSchedule.post s
       ∧ SocialMediaSchedule.scheduled_time s'
         = SocialMediaSchedule.scheduled_time s
       ∧ SocialMediaSchedule.max_retries s' = SocialMediaSchedule.max_retries s)
  ∧ ((∀ post_id, broker post_id = None) → posts w' = posts w).
Proof.
  intros w'. subst w'.
  destruct (sweep_loop_rest broker now (due_schedules now w) (0%nat, w))
    as [Hwebhooks Hcalls].
  split_and!; try done.
  - intros id. split.
    + intros [p' Hp']. destruct (posts w !! id) as [p|] eqn:Hp; [by eexists|].
      unfold process_scheduled_posts in Hp'.
      rewrite sweep_loop_posts_absent in Hp'; [cbn in Hp'; congruence|].
      intros id' s p Hin Heq.
      apply elem_of_due_schedules in Hin as (_ & _ & _ & Hsnap).
      rewrite Heq in Hsnap. congruence.
    + intros [p Hp]. unfold process_scheduled_posts.
      destruct (sweep_loop_posts broker now (due_schedules now w) (0%nat, w) id p Hp)
        as (p' & Hp' & _). by exists p'.
  - intros id. split.
    + intros [s' Hs']. apply sweep_schedules_inv in Hs' as (s & Hs & _).
      by exists s.
    + intros [s Hs]. destruct (sweep_schedules_fwd broker now w id s Hs);
        by eexists.
  - intros id s s' Hs Hs'.
    destruct (sweep_schedules_fwd broker now w id s Hs) as [H|H];
      rewrite H in Hs'; injection Hs' as <-; [done | apply swept_keeps].
  - intros Hup. unfold process_scheduled_posts.
    apply sweep_loop_posts_kept. intros id s p _. unfold exhausted.
    by rewrite Hup.
Qed.

Lemma sweep_frame_witness :
  posts (process_scheduled_posts broker_up an_hour_in two_scheduled).2
  = posts two_scheduled.
Proof.
  apply (sweep_frame broker_up an_hour_in two_scheduled). reflexivity.
Defined.

(** X6. A processed entry is not processed again: after a sweep at [now] in
    which every submission went through, a further sweep at [now] or earlier
    selects nothing, returns 0 and changes nothing, whatever the broker does. *)
Theorem second_sweep_is_empty broker broker' now now' w :
  (∀ post_id, broker post_id = None) →
  now' ≤ now →
  let w' := (process_scheduled_posts broker now w).2 in
  due_schedules now' w' = []
  ∧ process_scheduled_posts broker' now' w' = (0%nat, w').
Proof.
  intros Hup Hearlier w'.
  assert (Hnone : due_schedules now' w' = []).
  { destruct (due_schedules now' w') as [|[[id s'] p'] rows] eqn:Hrows; [done|].
    exfalso.
    assert (Hin : (id, s', p') ∈ due_schedules now' w') by (rewrite Hrows; left).
    apply elem_of_due_schedules in Hin as (Hs' & Hdue & Hproc & Hp').
    subst w'. pose proof Hs' as Hinv.
    apply sweep_schedules_inv in Hinv as (s & Hs & [->| ->]).
    - assert (Hsel : (id, s, p') ∈ due_schedules now w).
      { apply elem_of_due_schedules. split_and!; [done|lia|done|].
        destruct (sweep_frame broker now w) as (_ & _ & _ & _ & _ & Hposts).
        by rewrite <- (Hposts Hup). }
      unfold process_scheduled_posts in Hs'.
      rewrite (sweep_loop_selected broker now _ _ id s p'
                 (NoDup_due_schedules now w) Hsel) in Hs'.
      unfold swept in Hs'. rewrite Hup in Hs'. injection Hs' as Hs'.
      rewrite <- Hs' in Hproc. done.
    - unfold swept in Hproc. by rewrite Hup in Hproc. }
  split; [done|]. unfold process_scheduled_posts. by rewrite Hnone.
Qed.

Lemma second_sweep_is_empty_witness :
  process_scheduled_posts broker_down an_hour_in
    (process_scheduled_posts broker_up an_hour_in two_scheduled).2
  = (0%nat, (process_scheduled_posts broker_up an_hour_in two_scheduled).2).
Proof.
  apply (second_sweep_is_empty broker_up broker_down an_hour_in an_hour_in
           two_scheduled); [reflexivity | lia].
Defined.

(** One sweep in which the submission of an unprocessed, due entry raises. *)
Lemma failing_sweep_step w id s p ev :
  schedules w !! id = Some s →
  SocialMediaSchedule.is_processed s = false →
  posts w !! SocialMediaSchedule.post s = Some p →
  failing_sweep (SocialMediaSchedule.post s)
    (SocialMediaSchedule.scheduled_time s) ev →
  ∃ broker now e,
    broker (SocialMediaSchedule.post s) = Some e
    ∧ schedules (step w ev) !! id = Some (swept broker now s)
    ∧ is_Some (posts (step w ev) !! SocialMediaSchedule.post s)
    ∧ (exhausted broker s = true →
       ∃ p', posts (step w ev) !! SocialMediaSchedule.post s = Some p'
             ∧ SocialMediaPost.status p' = FAILED).
Proof.
  intros Hs Hproc Hp Hev.
  destruct ev as [| broker now |]; cbn in Hev; try done.
  destruct Hev as [[e He] Hdue]. exists broker, now, e.
  assert (Hin : (id, s, p) ∈ due_schedules now w).
  { by apply elem_of_due_schedules. }
  cbn [step]. unfold process_scheduled_posts. split_and!.
  - done.
  - by apply (sweep_loop_selected broker now _ _ id s p);
      [apply NoDup_due_schedules|].
  - destruct (sweep_loop_posts broker now (due_schedules now w) (0%nat, w) _ p Hp)
      as (p' & Hp' & _). by exists p'.
  - intros Hex. eexists. split.
    + apply sweep_loop_failed with (id := id) (p := p) (e := e);
        [|done|done|done].
      intros id' s' p' Hin' Hpost.
      apply elem_of_due_schedules in Hin' as (_ & _ & _ & Hp').
      rewrite Hpost in Hp'. congruence.
    + done.
Qed.

Lemma failing_sweeps_count evs w id s :
  schedules w !! id = Some s →
  SocialMediaSchedule.is_processed s = false →
  is_Some (posts w !! SocialMediaSchedule.post s) →
  Forall (failing_sweep (SocialMediaSchedule.post s)
            (SocialMediaSchedule.scheduled_time s)) evs →
  (SocialMediaSchedule.retry_count s + length evs
   ≤ SocialMediaSchedule.max_retries s)%nat →
  ∃ s', schedules (history w evs) !! id = Some s'
        ∧ SocialMediaSchedule.is_processed s' = false
        ∧ SocialMediaSchedule.retry_count s'
          = (SocialMediaSchedule.retry_count s + length evs)%nat
        ∧ SocialMediaSchedule.max_retries s' = SocialMediaSchedule.max_retries s
        ∧ SocialMediaSchedule.post s' = SocialMediaSchedule.post s
        ∧ SocialMediaSchedule.scheduled_time s'
          = SocialMediaSchedule.scheduled_time s
        ∧ is_Some (posts (history w evs) !! SocialMediaSchedule.post s).
Proof.
  revert w s. induction evs as [|ev evs IH]; intros w s Hs Hproc Hp Hall Hle.
  { exists s. cbn. rewrite Nat.add_0_r. by split_and!. }
  apply Forall_cons in Hall as [Hev Hall]. destruct Hp as [p Hp]. cbn in Hle.
  destruct (failing_sweep_step w id s p ev Hs Hproc Hp Hev)
    as (broker & now & e & He & Hs1 & Hp1 & _).
  unfold swept in Hs1. rewrite He in Hs1.
  destruct (Nat.ltb_spec (SocialMediaSchedule.retry_count s)
              (SocialMediaSchedule.max_retries s)) as [_|?]; [|lia].
  destruct (IH (step w ev) (SocialMediaSchedule.schedule_retry now s))
    as (s' & Hs' & Hproc' & Hcount & Hmax & Hpost & Htime & Hp'); try done.
  { cbn. lia. }
  exists s'. cbn in *. split_and!; try done. lia.
Qed.

(** X7. Bounded retries of the sweeper. Over consecutive sweeps in which the
    submission of an unprocessed, due entry keeps raising, [retry_count] goes
    up by one per sweep while it is below [max_retries] and the entry stays
    unprocessed; the sweep that finds [retry_count = max_retries] marks the
    entry processed and its post [FAILED]. An entry created with the defaults
    (0 of 3) is given up by the fourth failing sweep. *)
Theorem sweeper_gives_up evs ev w id s :
  schedules w !! id = Some s →
  SocialMediaSchedule.is_processed s = false →
  is_Some (posts w !! SocialMediaSchedule.post s) →
  Forall (failing_sweep (SocialMediaSchedule.post s)
            (SocialMediaSchedule.scheduled_time s)) (evs ++ [ev]) →
  (SocialMediaSchedule.retry_count s + length evs
   = SocialMediaSchedule.max_retries s)%nat →
  (∃ s', schedules (history w evs) !! id = Some s'
         ∧ SocialMediaSchedule.is_processed s' = false
         ∧ SocialMediaSchedule.retry_count s' = SocialMediaSchedule.max_retries s)
  ∧ (∃ s'' p'',
       schedules (history w (evs ++ [ev])) !! id = Some s''
       ∧ SocialMediaSchedule.is_processed s'' = true
       ∧ SocialMediaSchedule.retry_count s'' = SocialMediaSchedule.max_retries s
       ∧ posts (history w (evs ++ [ev])) !! SocialMediaSchedule.post s = Some p''
       ∧ SocialMediaPost.status p'' = FAILED).
Proof.
  intros Hs Hproc Hp Hall Hlen. apply Forall_app in Hall as [Hall Hlast].
  apply Forall_cons in Hlast as [Hlast _].
  destruct (failing_sweeps_count evs w id s Hs Hproc Hp Hall)
    as (s' & Hs' & Hproc' & Hcount & Hmax & Hpost & Htime & [p' Hp']); [lia|].
  split.
  - exists s'. split_and!; [done..|lia].
  - unfold history. rewrite foldl_app. cbn [foldl]. fold (history w evs).
    rewrite <- Hpost in Hp'. rewrite <- Hpost, <- Htime in Hlast.
    destruct (failing_sweep_step (history w evs) id s' p' ev Hs' Hproc' Hp' Hlast)
      as (broker & now & e & He & Hs1 & _ & Hfailed).
    assert (Hex : exhausted broker s' = true).
    { unfold exhausted. rewrite He.
      destruct (Nat.ltb_spec (SocialMediaSchedule.retry_count s')
                  (SocialMediaSchedule.max_retries s')); [lia | done]. }
    destruct (Hfailed Hex) as (p'' & Hp'' & Hstatus).
    unfold swept in Hs1. rewrite He in Hs1.
    destruct (Nat.ltb_spec (SocialMediaSchedule.retry_count s')
                (SocialMediaSchedule.max_retries s')) as [?|_]; [lia|].
    eexists _, p''. rewrite <- Hpost. split_and!; [done|done| |done|done].
    cbn. lia.
Qed.

Lemma sweeper_gives_up_witness :
  ∃ s'' p'',
    schedules (history two_scheduled
                 ([RunSweep broker_down an_hour_in;
                   RunSweep broker_down (an_hour_in + timedelta.minutes 1);
                   RunSweep broker_down (an_hour_in + timedelta.minutes 2)]
                  ++ [RunSweep broker_down (an_hour_in + timedelta.minutes 3)]))
      !! 70%N = Some s''
    ∧ SocialMediaSchedule.is_processed s'' = true
    ∧ posts (history two_scheduled
               ([RunSweep broker_down an_hour_in;
                 RunSweep broker_down (an_hour_in + timedelta.minutes 1);
                 RunSweep broker_down (an_hour_in + timedelta.minutes 2)]
                ++ [RunSweep broker_down (an_hour_in + timedelta.minutes 3)]))
        !! 7%N = Some p''
    ∧ SocialMediaPost.status p'' = FAILED.
Proof.
  destruct (sweeper_gives_up
              [RunSweep broker_down an_hour_in;
               RunSweep broker_down (an_hour_in + timedelta.minutes 1);
               RunSweep broker_down (an_hour_in + timedelta.minutes 2)]
              (RunSweep broker_down (an_hour_in + timedelta.minutes 3))
              two_scheduled 70%N a_due_schedule)
    as [_ (s'' & p'' & Hs'' & Hproc & _ & Hp'' & Hstatus)].
  - reflexivity.
  - reflexivity.
  - by eexists.
  - repeat constructor; try (by eexists); vm_compute; discriminate.
  - reflexivity.
  - exists s'', p''. by split_and!.
Defined.

(** ** Webhooks *)

Lemma singleton_of_NoDup {A} (l : list A) (a : A) :
  NoDup l → a ∈ l → (∀ x, x ∈ l → x = a) → l = [a].
Proof.
  intros Hnd Hin Hall. destruct l as [|x [|y l]].
  - by apply elem_of_nil in Hin.
  - f_equal. apply Hall. by left.
  - exfalso. apply NoDup_cons in Hnd as [Hx _]. apply Hx.
    rewrite (Hall x) by left. rewrite (Hall y) by (right; left). by left.
Qed.

Lemma NoDup_List_filter {A} (f : A → bool) (l : list A) :
  NoDup l → NoDup (List.filter f l).
Proof.
  induction 1 as [|x l Hx Hnd IH]; cbn; [constructor|].
  destruct (f x); [|done]. constructor; [|done].
  rewrite elem_of_List_filter. tauto.
Qed.

Lemma get_post_by_platform_post_id_unique w platform_post_id post_id post :
  posts w !! post_id = Some post →
  SocialMediaPost.platform_post_id post = Some platform_post_id →
  (∀ id' post', posts w !! id' = Some post' →
     SocialMediaPost.platform_post_id post' = Some platform_post_id →
     id' = post_id) →
  get_post_by_platform_post_id w platform_post_id = Ok (post_id, post).
Proof.
  intros Hpost Hid Hunique. unfold get_post_by_platform_post_id.
  rewrite (singleton_of_NoDup _ (post_id, post)); [done| | |].
  - apply NoDup_List_filter, NoDup_map_to_list.
  - apply elem_of_List_filter. split.
    + by apply bool_decide_eq_true.
    + by apply elem_of_map_to_list.
  - intros [id' post'] Hin. apply elem_of_List_filter in Hin as [Hmatch Hin].
    apply bool_decide_eq_true in Hmatch. apply elem_of_map_to_list in Hin.
    cbn in *. assert (id' = post_id) as -> by by eapply Hunique.
    congruence.
Qed.


(** X8. A [POST_PUBLISHED] webhook whose [post_id] names exactly one stored
    post saves that post [PUBLISHED] with [published_at = now], leaves every
    other post as it was, and stores the webhook processed at [now], without
    a link to the post. *)
Theorem webhook_publishes_post webhook_id now data w platform_post_id post_id post :
  wd_event_type data = "POST_PUBLISHED" →
  wd_data data !! "post_id" = Some platform_post_id →
  posts w !! post_id = Some post →
  SocialMediaPost.platform_post_id post = Some platform_post_id →
  (∀ id' post', posts w !! id' = Some post' →
     SocialMediaPost.platform_post_id post' = Some platform_post_id →
     id' = post_id) →
  let run := process_social_webhooks webhook_id now data w in
  run.1 = Ok webhook_id
  ∧ posts run.2 = <[post_id := SocialMediaPost.mark_published now post]> (posts w)
  ∧ queue run.2 = queue w
  ∧ ∃ h, webhooks run.2 !! webhook_id = Some h
         ∧ SocialMediaWebhook.is_processed h = true
         ∧ SocialMediaWebhook.processed_at h = Some now
         ∧ SocialMediaWebhook.post h = None.
Proof.
  intros Htype Hdata Hpost Hid Hunique run. subst run.
  unfold process_social_webhooks, handle_webhook_event.
  rewrite Htype, Hdata. cbn [String.eqb Ascii.eqb Bool.eqb].
  rewrite (get_post_by_platform_post_id_unique _ _ post_id post); [|done..].
  cbn. split_and!; [done..|]. eexists. rewrite lookup_insert_eq. done.
Qed.

Lemma webhook_publishes_post_witness :
  (process_social_webhooks 900 5 a_published_event one_published).1 = Ok 900%N.
Proof.
  apply (webhook_publishes_post 900 5 a_published_event one_published "123"
           7%N a_published_post); try reflexivity.
  intros id' post' Hpost' _.
  destruct (decide (id' = 7%N)) as [|Hne]; [done|].
  unfold one_published in Hpost'. cbn in Hpost'.
  by rewrite lookup_singleton_ne in Hpost'.
Defined.



(** X10. A webhook never writes a post unless it is a [POST_PUBLISHED] event,
    and it queues a metrics update only for a [LIKE], [COMMENT] or [SHARE]
    event: for an engagement event naming exactly one stored post, exactly
    one [update_social_media_metrics] message is queued and no post changes. *)
Theorem webhook_engagement_event webhook_id now data w :
  let run := process_social_webhooks webhook_id now data w in
  (wd_event_type data ≠ "POST_PUBLISHED" → posts run.2 = posts w)
  ∧ (wd_event_type data ∉ ["LIKE"; "COMMENT"; "SHARE"] → queue run.2 = queue w)
  ∧ (∀ platform_post_id post_id post,
       wd_event_type data ∈ ["LIKE"; "COMMENT"; "SHARE"] →
       wd_data data !! "post_id" = Some platform_post_id →
       posts w !! post_id = Some post →
       SocialMediaPost.platform_post_id post = Some platform_post_id →
       (∀ id' post', posts w !! id' = Some post' →
          SocialMediaPost.platform_post_id post' = Some platform_post_id →
          id' = post_id) →
       run.1 = Ok webhook_id
       ∧ queue run.2 = queue w ++ [update_social_media_metrics_msg]).
Proof.
  intros run. subst run. unfold process_social_webhooks, handle_webhook_event.
  split_and!.
  - intros Htype. apply String.eqb_neq in Htype. rewrite Htype.
    destruct (bool_decide _); [|done].
    destruct (wd_data data !! "post_id"); [|done].
    by destruct (get_post_by_platform_post_id _ _) as [[??]|[]].
  - intros Htype. destruct (String.eqb _ _).
    + destruct (wd_data data !! "post_id"); [|done].
      by destruct (get_post_by_platform_post_id _ _) as [[??]|[]].
    + by rewrite bool_decide_eq_false_2.
  - intros ppid post_id post Htype Hdata Hpost Hid Hunique.
    assert (Hne : String.eqb (wd_event_type data) "POST_PUBLISHED" = false).
    { apply String.eqb_neq. intros Heq. rewrite Heq in Htype.
      by repeat (apply elem_of_cons in Htype as [?|Htype]; [done|]);
        apply elem_of_nil in Htype. }
    rewrite Hne, bool_decide_eq_true_2, Hdata by done.
    rewrite (get_post_by_platform_post_id_unique _ _ post_id post); [done|done..].
Qed.

Lemma webhook_engagement_event_witness :
  posts (process_social_webhooks 900 5
           {| wd_platform := "TWITTER"; wd_event_type := "LIKE";
              wd_event_id := "evt-2"; wd_data := {[ "post_id" := "123" ]};
              wd_raw_payload := "{}" |} one_published).2
  = posts one_published.
Proof.
  apply (webhook_engagement_event 900 5
           {| wd_platform := "TWITTER"; wd_event_type := "LIKE";
              wd_event_id := "evt-2"; wd_data := {[ "post_id" := "123" ]};
              wd_raw_payload := "{}" |} one_published).
  discriminate.
Defined.

(** ** More on retention *)

Lemma World_eq (w1 w2 : World) :
  posts w1 = posts w2 → schedules w1 = schedules w2 →
  webhooks w1 = webhooks w2 → queue w1 = queue w2 →
  adapter_calls w1 = adapter_calls w2 → w1 = w2.
Proof. destruct w1, w2. cbn. by intros -> -> -> -> ->. Qed.

Lemma map_filter_all {A} (P : UUID * A → Prop) `{!∀ x, Decision (P x)}
    (m : gmap UUID A) :
  (∀ i x, m !! i = Some x → P (i, x)) → filter P m = m.
Proof.
  intros Hall. apply map_eq. intros i. apply option_eq. intros x.
  rewrite map_lookup_filter_Some. split; [by intros [? _] | auto].
Qed.

Lemma map_filter_none {A} (P : UUID * A → Prop) `{!∀ x, Decision (P x)}
    (m : gmap UUID A) :
  (∀ i x, m !! i = Some x → ¬ P (i, x)) → filter P m = ∅.
Proof.
  intros Hnone. apply map_eq. intros i. rewrite lookup_empty.
  apply eq_None_not_Some. intros [x Hx].
  apply map_lookup_filter_Some in Hx as [Hx HP]. by eapply Hnone.
Qed.

(** X11. [cleanup_failed_posts] is idempotent: run again at the same instant
    it finds nothing to delete, reports zero posts and zero schedules, and
    leaves every table as the first run left it. *)
Theorem cleanup_failed_posts_idempotent now w :
  cleanup_failed_posts now (cleanup_failed_posts now w).2
  = ({| failed_posts_cleaned := 0; schedules_cleaned := 0 |},
     (cleanup_failed_posts now w).2).
Proof.
  unfold cleanup_failed_posts. cbn [snd].
  set (cutoff := now - timedelta.days 30).
  set (bound := now - timedelta.days 7).
  set (w1 := delete_posts (failed_before cutoff) w).
  set (w2 := set_schedules (filter (λ kv, processed_before bound kv.2 = false)) w1).
  assert (Hposts : ∀ i p, posts w2 !! i = Some p → failed_before cutoff p = false).
  { intros i p Hp. cbn in Hp. by apply map_lookup_filter_Some in Hp as [_ ?]. }
  assert (Hscheds : ∀ i s, schedules w2 !! i = Some s →
            processed_before bound s = false).
  { intros i s Hs. cbn in Hs. by apply map_lookup_filter_Some in Hs as [_ ?]. }
  assert (Hpoints : ∀ post_id, points_at (failed_before cutoff) w2 post_id = false).
  { intros post_id. unfold points_at.
    destruct (posts w2 !! post_id) as [p|] eqn:Hp; [by eapply Hposts | done]. }
  assert (Hdelete : delete_posts (failed_before cutoff) w2 = w2).
  { apply World_eq; unfold delete_posts; cbn [posts schedules webhooks queue
      adapter_calls]; try done.
    - apply map_filter_all. intros i p Hp. cbn. by eapply Hposts.
    - apply map_filter_all. intros i s _. cbn. apply Hpoints.
    - apply map_filter_all. intros i h _. cbn.
      destruct (SocialMediaWebhook.post h); cbn; [apply Hpoints | done]. }
  rewrite Hdelete. f_equal.
  - f_equal.
    + rewrite map_filter_none; [apply map_size_empty|].
      intros i p Hp. cbn. by rewrite (Hposts i p Hp).
    + rewrite map_filter_none; [apply map_size_empty|].
      intros i s Hs. cbn. by rewrite (Hscheds i s Hs).
  - apply World_eq; cbn [set_schedules posts schedules webhooks queue
      adapter_calls]; try done.
    apply map_filter_all. intros i s Hs. cbn. by eapply Hscheds.
Qed.

Lemma step_bound_to_posts w ev : bound_to_posts w → bound_to_posts (step w ev).
Proof.
  intros Hw id s' Hs'.
  assert (Hfrom : ∃ s, schedules w !! id = Some s
                       ∧ SocialMediaSchedule.post s' = SocialMediaSchedule.post s).
  { destruct ev as [adapter t n post_id|broker t|webhook_id t data]; cbn in Hs'.
    - rewrite post_to_social_media_schedules in Hs'. by exists s'.
    - apply sweep_schedules_inv in Hs' as (s & Hs & [->| ->]);
        exists s; (split; [done|]); [done | apply swept_keeps].
    - destruct (process_social_webhooks_effect webhook_id t data w) as [Hsame _].
      rewrite Hsame in Hs'. by exists s'. }
  destruct Hfrom as (s & Hs & ->). destruct (Hw id s Hs) as [p Hp].
  destruct (step_settled w ev _ p Hp) as (p' & Hp' & _). by exists p'.
Qed.

(** X12. Referential integrity is kept: if every schedule entry points at a
    stored post, it still does after any sequence of handler runs, sweeps and
    webhook events, and after [cleanup_failed_posts], which removes an entry
    whenever it removes its post. *)
Theorem schedules_stay_bound w :
  bound_to_posts w →
  (∀ evs, bound_to_posts (history w evs))
  ∧ (∀ now, bound_to_posts (cleanup_failed_posts now w).2).
Proof.
  intros Hw. split.
  - intros evs. revert w Hw. induction evs as [|ev evs IH]; intros w Hw; [done|].
    apply IH. by apply step_bound_to_posts.
  - intros now id s Hs. unfold cleanup_failed_posts in *. cbn in *.
    apply map_lookup_filter_Some in Hs as [Hs _].
    apply map_lookup_filter_Some in Hs as [Hs Hpoint]. cbn in Hpoint.
    destruct (Hw id s Hs) as [p Hp]. exists p.
    apply map_lookup_filter_Some. split; [done|]. cbn.
    unfold points_at in Hpoint. by rewrite Hp in Hpoint.
Qed.

Lemma schedules_stay_bound_witness :
  bound_to_posts (cleanup_failed_posts (timedelta.days 31) one_failed).2.
Proof.
  apply (schedules_stay_bound one_failed).
  intros id s Hs. destruct (decide (id = 70%N)) as [->|Hne].
  - injection Hs as <-. by eexists.
  - unfold one_failed in Hs. cbn in Hs. by rewrite lookup_singleton_ne in Hs.
Defined.

(** ** The rate limit *)

Lemma check_rate_limit_spec env now user_id w :
  check_rate_limit env now user_id w
  = if (GEMINI_RATE_LIMIT_RPM env <=? current_requests now user_id w)%nat
    then (false, w)
    else (true,
          {| users := users w; agents := agents w;
             interactions := interactions w;
             rate_limit_cache :=
               <[user_id := ((current_requests now user_id w + 1)%nat,
                             now + timedelta.seconds 60)]> (rate_limit_cache w);
             provider_calls := provider_calls w |}).
Proof. reflexivity. Qed.

Lemma check_rate_limit_frame env now user_id w :
  users (check_rate_limit env now user_id w).2 = users w
  ∧ agents (check_rate_limit env now user_id w).2 = agents w
  ∧ interactions (check_rate_limit env now user_id w).2 = interactions w
  ∧ provider_calls (check_rate_limit env now user_id w).2 = provider_calls w.
Proof. rewrite check_rate_limit_spec. by case_match. Qed.

Lemma burst_spec env now user_id calls w :
  (burst env now user_id calls w).1
  = (calls `min` (GEMINI_RATE_LIMIT_RPM env - current_requests now user_id w))%nat
  ∧ current_requests now user_id (burst env now user_id calls w).2
    = (current_requests now user_id w + (burst env now user_id calls w).1)%nat.
Proof.
  revert w. induction calls as [|calls IH]; intros w; cbn [burst].
  { cbn. split; lia. }
  rewrite check_rate_limit_spec.
  destruct (Nat.leb_spec (GEMINI_RATE_LIMIT_RPM env) (current_requests now user_id w))
    as [Hfull|Hroom].
  - destruct (IH w) as [Hpassed Hcount].
    destruct (burst env now user_id calls w) as [passed w2].
    cbn [fst snd] in *. split; lia.
  - set (w1 := {| users := users w; agents := agents w;
                  interactions := interactions w;
                  rate_limit_cache := _; provider_calls := provider_calls w |}).
    assert (Hone : current_requests now user_id w1
                   = (current_requests now user_id w + 1)%nat).
    { unfold current_requests at 1. subst w1. cbn. rewrite lookup_insert_eq.
      destruct (Z.ltb_spec now (now + timedelta.seconds 60)); [done|].
      unfold timedelta.seconds in *. lia. }
    destruct (IH w1) as [Hpassed Hcount]. rewrite Hone in Hpassed, Hcount.
    destruct (burst env now user_id calls w1) as [passed w2].
    cbn [fst snd] in *. split; lia.
Qed.

(** X13. The rate limit. Of any number of [check_rate_limit] calls made for
    one user at one instant, exactly as many pass as the minute's limit
    still allows, and the cached count grows by that number; a refused call
    changes nothing; and an allowed call opens a fresh 60 seconds for the
    whole count, after which the count reads 0 again. *)
Theorem rate_limit_allows_up_to_limit env now user_id calls w :
  (burst env now user_id calls w).1
  = (calls `min` (GEMINI_RATE_LIMIT_RPM env - current_requests now user_id w))%nat
  ∧ current_requests now user_id (burst env now user_id calls w).2
    = (current_requests now user_id w + (burst env now user_id calls w).1)%nat
  ∧ ((check_rate_limit env now user_id w).1 = false →
     (check_rate_limit env now user_id w).2 = w)
  ∧ ((check_rate_limit env now user_id w).1 = true →
     ∀ later, now + timedelta.seconds 60 ≤ later →
       current_requests later user_id (check_rate_limit env now user_id w).2
       = 0%nat).
Proof.
  destruct (burst_spec env now user_id calls w) as [Hpassed Hcount].
  split_and!; [done..| |]; rewrite check_rate_limit_spec; case_match; try done.
  intros _ later Hlater. unfold current_requests. cbn.
  rewrite lookup_insert_eq.
  destruct (Z.ltb_spec later (now + timedelta.seconds 60)); [lia | done].
Qed.

Lemma rate_limit_allows_up_to_limit_witness :
  current_requests (timedelta.seconds 61) 1%N
    (check_rate_limit flaky_provider 0 1%N fresh_agent).2 = 0%nat.
Proof.
  apply (rate_limit_allows_up_to_limit flaky_provider 0 1%N 0 fresh_agent);
    [reflexivity|]. vm_compute. discriminate.
Defined.

(** ** Bookkeeping of [generate_content] *)

Lemma _record_interaction_returns now agent_id agent row w :
  ∃ agent',
    _record_interaction now agent_id agent row w
    = (Ok (), agent', save_agent agent_id agent' (with_interaction row w))
    ∧ AIAgent.total_interactions agent' = S (AIAgent.total_interactions agent)
    ∧ AIAgent.last_active agent' = Some now
    ∧ AIAgent.name agent' = AIAgent.name agent
    ∧ AIAgent.agent_type agent' = AIAgent.agent_type agent
    ∧ (AIInteraction.is_successful row = false →
       AIAgent.success_rate agent' = AIAgent.success_rate agent
       ∧ AIAgent.average_response_time agent'
         = AIAgent.average_response_time agent).
Proof.
  unfold _record_interaction.
  replace (AIAgent.total_interactions agent + 1)%nat
    with (S (AIAgent.total_interactions agent)) by lia.
  destruct (AIInteraction.is_successful row).
  - unfold updated_average, updated_success_rate.
    cbn [AIAgent.average_response_time AIAgent.total_interactions AIAgent.name
         AIAgent.agent_type AIAgent.success_rate AIAgent.last_active].
    destruct (PrimFloat.eqb (AIAgent.average_response_time agent) 0).
    + rewrite int_truediv_nonzero by lia. cbn. eexists. by split_and!.
    + rewrite float_truediv_int_nonzero by lia.
      rewrite int_truediv_nonzero by lia. cbn. eexists. by split_and!.
  - eexists. by split_and!.
Qed.

Lemma call_provider_frame env service allowed w :
  users (call_provider env service allowed w).2 = users w
  ∧ agents (call_provider env service allowed w).2 = agents w
  ∧ interactions (call_provider env service allowed w).2 = interactions w
  ∧ rate_limit_cache (call_provider env service allowed w).2
    = rate_limit_cache w.
Proof.
  unfold call_provider. destruct (negb allowed); [done|].
  destruct (gemini_configured env service); [|done].
  by destruct (gemini env _).
Qed.

(** X14. Every call of [generate_content] records exactly one interaction,
    dated [now] and carrying the measured response time, and saves the agent
    with [total_interactions] one higher and [last_active = now], whether the
    call returns or raises. When it returns, the row is successful and holds
    the generated text. When it raises, it is with [AIServiceError]
    ["Content generation failed: ..."], the row is unsuccessful with an
    empty response and the cause as error message, and the agent's success
    rate and average response time are left as they were. *)
Theorem generate_content_records_interaction env service now prompt user_id
    agent_id agent w :
  let run := generate_content env service now prompt user_id agent_id agent w in
  ∃ row agent',
    interactions run.2 = interactions w ++ [row]
    ∧ agents run.2 = <[agent_id := agent']> (agents w)
    ∧ users run.2 = users w
    ∧ AIAgent.total_interactions agent' = S (AIAgent.total_interactions agent)
    ∧ AIAgent.last_active agent' = Some now
    ∧ AIAgent.agent_type agent' = AIAgent.agent_type agent
    ∧ AIInteraction.user row = user_id
    ∧ AIInteraction.agent row = agent_id
    ∧ AIInteraction.timestamp row = now
    ∧ AIInteraction.response_time row = elapsed env (length (interactions w))
    ∧ match run.1 with
      | Ok returned =>
          AIInteraction.is_successful row = true
          ∧ AIInteraction.response row = ret_text returned
          ∧ AIInteraction.error_message row = None
      | Raise e =>
          AIInteraction.is_successful row = false
          ∧ AIInteraction.response row = ""
          ∧ (∃ cause, AIInteraction.error_message row = Some cause
                      ∧ e = AIServiceError
                              ("Content generation failed: " +:+ cause))
          ∧ AIAgent.success_rate agent' = AIAgent.success_rate agent
          ∧ AIAgent.average_response_time agent'
            = AIAgent.average_response_time agent
      end.
Proof.
  intros run. subst run. unfold generate_content.
  destruct (check_rate_limit_frame env now user_id w) as (Hu1 & Ha1 & Hi1 & _).
  destruct (check_rate_limit env now user_id w) as [allowed w1]. cbn [fst snd] in *.
  destruct (call_provider_frame env service allowed w1) as (Hu2 & Ha2 & Hi2 & _).
  destruct (call_provider env service allowed w1) as [[result|e] w2]; cbn [fst snd] in *.
  - match goal with
    | |- context [_record_interaction now agent_id agent ?r w2] =>
        destruct (_record_interaction_returns now agent_id agent r w2)
          as (agent' & -> & Htotal & Hactive & _ & Htype & _); exists r, agent'
    end.
    cbn. rewrite Hi2, Hi1, Ha2, Ha1, Hu2, Hu1. by split_and!.
  - match goal with
    | |- context [_record_interaction now agent_id agent ?r w2] =>
        destruct (_record_interaction_returns now agent_id agent r w2)
          as (agent' & -> & Htotal & Hactive & _ & Htype & Hkept);
          exists r, agent'
    end.
    cbn. rewrite Hi2, Hi1, Ha2, Ha1, Hu2, Hu1.
    destruct (Hkept eq_refl) as [Hrate Havg].
    split_and!; try done. by eexists.
Qed.

(** X15. A request refused by the rate limit, or made on a service without a
    configured model, makes no model call, yet is recorded as a failed
    interaction and counted in [total_interactions]. The refused request
    leaves the rate-limit cache as it was. *)
Theorem refused_request_is_recorded env service now prompt user_id agent_id
    agent w :
  let run := generate_content env service now prompt user_id agent_id agent w in
  ((check_rate_limit env now user_id w).1 = false →
   run.1 = Raise (AIServiceError
                    "Content generation failed: Rate limit exceeded for gemini")
   ∧ provider_calls run.2 = provider_calls w
   ∧ rate_limit_cache run.2 = rate_limit_cache w
   ∧ length (interactions run.2) = S (length (interactions w)))
  ∧ (gemini_configured env service = false →
     (check_rate_limit env now user_id w).1 = true →
     run.1 = Raise (AIServiceError
                      "Content generation failed: Provider gemini not available")
     ∧ provider_calls run.2 = provider_calls w
     ∧ length (interactions run.2) = S (length (interactions w))).
Proof.
  intros run. subst run. unfold generate_content. split.
  - intros Hrefused. rewrite check_rate_limit_spec in *.
    destruct (_ <=? _)%nat; [|done]. cbn [fst snd call_provider negb].
    match goal with
    | |- context [_record_interaction now agent_id agent ?r w] =>
        destruct (_record_interaction_returns now agent_id agent r w)
          as (agent' & -> & _)
    end.
    cbn. rewrite length_app. cbn. split_and!; [done..|lia].
  - intros Hnone Hallowed.
    destruct (check_rate_limit_frame env now user_id w) as (_ & _ & Hi1 & Hp1).
    destruct (check_rate_limit env now user_id w) as [allowed w1]. cbn [fst snd] in *.
    subst allowed. unfold call_provider. rewrite Hnone. cbn [fst snd negb].
    match goal with
    | |- context [_record_interaction now agent_id agent ?r w1] =>
        destruct (_record_interaction_returns now agent_id agent r w1)
          as (agent' & -> & _)
    end.
    cbn. rewrite length_app, Hi1. cbn. split_and!; [done..|lia].
Qed.

Lemma refused_request_is_recorded_witness :
  (generate_content one_per_minute marketing_agent 0 "hi" 1%N 5%N
     a_marketing_agent a_used_minute).1
  = Raise (AIServiceError
             "Content generation failed: Rate limit exceeded for gemini")
  ∧ (generate_content one_per_minute ai_service 0 "hi" 1%N 5%N
       a_marketing_agent fresh_agent).1
    = Raise (AIServiceError
               "Content generation failed: Provider gemini not available").
Proof.
  split.
  - apply (refused_request_is_recorded one_per_minute marketing_agent 0 "hi"
             1%N 5%N a_marketing_agent a_used_minute). reflexivity.
  - apply (refused_request_is_recorded one_per_minute ai_service 0 "hi"
             1%N 5%N a_marketing_agent fresh_agent); reflexivity.
Defined.

(** ** [generate_ai_content]: the two lookups *)


Lemma get_agent_none w agent_type :
  (∀ id a, agents w !! id = Some a → AIAgent.agent_type a ≠ agent_type) →
  get_agent w agent_type = Raise (DoesNotExist "AIAgent").
Proof.
  intros Hnone. unfold get_agent.
  destruct (List.filter _ _) as [|[id a] found] eqn:Hfound; [done|].
  assert (Hin : (id, a) ∈ List.filter
            (λ kv, String.eqb (AIAgent.agent_type kv.2) agent_type)
            (map_to_list (agents w))) by (rewrite Hfound; left).
  apply elem_of_List_filter in Hin as [Hmatch Hin].
  apply String.eqb_eq in Hmatch. apply elem_of_map_to_list in Hin.
  by destruct (Hnone id a Hin).
Qed.

Lemma get_agent_many w agent_type id1 id2 a1 a2 :
  id1 ≠ id2 →
  agents w !! id1 = Some a1 → AIAgent.agent_type a1 = agent_type →
  agents w !! id2 = Some a2 → AIAgent.agent_type a2 = agent_type →
  ∃ n, (2 ≤ n)%nat
       ∧ get_agent w agent_type = Raise (MultipleObjectsReturned "AIAgent" n).
Proof.
  intros Hne H1 Ht1 H2 Ht2. unfold get_agent.
  assert (Hin : ∀ id a, agents w !! id = Some a →
            AIAgent.agent_type a = agent_type →
            (id, a) ∈ List.filter
              (λ kv, String.eqb (AIAgent.agent_type kv.2) agent_type)
              (map_to_list (agents w))).
  { intros id a Hid Ht. apply elem_of_List_filter. split.
    - by apply String.eqb_eq.
    - by apply elem_of_map_to_list. }
  pose proof (Hin id1 a1 H1 Ht1) as Hin1. pose proof (Hin id2 a2 H2 Ht2) as Hin2.
  destruct (List.filter _ _) as [|kv [|kv' found]].
  - by apply elem_of_nil in Hin1.
  - apply list_elem_of_singleton in Hin1, Hin2. congruence.
  - eexists. split; [|done]. cbn. lia.
Qed.

Lemma generate_ai_content_lookup_fails env now retries user_id agent_type
    prompt w e :
  match get_user w user_id with
  | Raise e' => e' = e
  | Ok _ => get_agent w agent_type = Raise e
  end →
  generate_ai_content env now retries user_id agent_type prompt w
  = (Celery.RetryCalled e (60 * 2 ^ Z.of_nat retries), w).
Proof.
  unfold generate_ai_content.
  destruct (get_user w user_id); [intros ->|intros ->]; done.
Qed.

(** X16. When [generate_ai_content] cannot look up its user or its agent,
    because the user id is unknown, no agent has the requested type, or
    two agents share it ([agent_type] is not unique), the worker still
    makes all four executions, each raising the lookup's exception
    ([User.DoesNotExist], [AIAgent.DoesNotExist],
    [AIAgent.MultipleObjectsReturned]); nothing is written: no interaction
    is recorded, no model call made and the rate limit is not charged. *)
Theorem ai_lookup_failure_is_retried env fuel now user_id agent_type prompt w :
  (3 ≤ fuel)%nat →
  let run := deliver_ai_content env fuel now user_id agent_type prompt w in
  (user_id ∉ users w →
   run.2 = w ∧ run.1.2 = Celery.GaveUp (DoesNotExist "User")
   ∧ length run.1.1 = 4%nat)
  ∧ (user_id ∈ users w →
     (∀ id a, agents w !! id = Some a → AIAgent.agent_type a ≠ agent_type) →
     run.2 = w ∧ run.1.2 = Celery.GaveUp (DoesNotExist "AIAgent")
     ∧ length run.1.1 = 4%nat)
  ∧ (user_id ∈ users w →
     (∃ id1 id2 a1 a2, id1 ≠ id2
        ∧ agents w !! id1 = Some a1 ∧ AIAgent.agent_type a1 = agent_type
        ∧ agents w !! id2 = Some a2 ∧ AIAgent.agent_type a2 = agent_type) →
     run.2 = w ∧ length run.1.1 = 4%nat
     ∧ ∃ n, (2 ≤ n)%nat
            ∧ run.1.2 = Celery.GaveUp (MultipleObjectsReturned "AIAgent" n)).
Proof.
  intros Hfuel run. subst run. unfold deliver_ai_content.
  assert (Hstuck : ∀ e,
    match get_user w user_id with
    | Raise e' => e' = e
    | Ok _ => get_agent w agent_type = Raise e
    end →
    let run := Celery.run
      (λ now retries,
         generate_ai_content env now retries user_id agent_type prompt)
      task_max_retries fuel now 0 w in
    run.2 = w ∧ run.1.2 = Celery.GaveUp e ∧ length run.1.1 = 4%nat).
  { intros e He.
    apply (run_stuck
             (λ now retries,
                generate_ai_content env now retries user_id agent_type prompt)
             task_max_retries e (λ n, 60 * 2 ^ Z.of_nat n) w fuel now 0%nat);
      [|unfold task_max_retries; lia..].
    intros now' n. by apply generate_ai_content_lookup_fails. }
  split_and!.
  - intros Huser. apply Hstuck. unfold get_user.
    by rewrite bool_decide_eq_false_2.
  - intros Huser Hnone. apply Hstuck. unfold get_user.
    rewrite bool_decide_eq_true_2 by done. by apply get_agent_none.
  - intros Huser (id1 & id2 & a1 & a2 & Hne & H1 & Ht1 & H2 & Ht2).
    destruct (get_agent_many w agent_type id1 id2 a1 a2) as (n & Hn & Hmany);
      [done..|].
    destruct (Hstuck (MultipleObjectsReturned "AIAgent" n)) as (? & ? & ?).
    { unfold get_user. by rewrite bool_decide_eq_true_2. }
    split_and!; [done..|]. by exists n.
Qed.

Lemma ai_lookup_failure_is_retried_witness :
  (deliver_ai_content flaky_provider 3 0 2%N "MARKETING" "hi" fresh_agent).2
  = fresh_agent
  ∧ (deliver_ai_content flaky_provider 3 0 1%N "COMMUNITY" "hi" fresh_agent).2
    = fresh_agent.
Proof.
  split.
  - destruct (ai_lookup_failure_is_retried flaky_provider 3 0 2%N "MARKETING"
                "hi" fresh_agent) as ((Hsame & _) & _); [lia| |exact Hsame].
    unfold fresh_agent. cbn. set_solver.
  - destruct (ai_lookup_failure_is_retried flaky_provider 3 0 1%N "COMMUNITY"
                "hi" fresh_agent) as (_ & (Hsame & _) & _);
      [lia| | |exact Hsame].
    + unfold fresh_agent. cbn. set_solver.
    + intros id a Hin. unfold fresh_agent in Hin. cbn in Hin.
      apply lookup_singleton_Some in Hin as [_ <-]. discriminate.
Defined.

(** ** The AI worker's bookkeeping *)






(** ** [sync_social_accounts] *)

Lemma List_filter_sublist {A} (f : A → bool) (l : list A) :
  List.filter f l `sublist_of` l.
Proof.
  induction l as [|x l IH]; cbn; [done|].
  destruct (f x); [by apply sublist_skip | by apply sublist_cons].
Qed.

Lemma length_List_filter_le {A} (f g : A → bool) (l : list A) :
  (∀ x, x ∈ l → f x = true → g x = true) →
  (length (List.filter f l) ≤ length (List.filter g l))%nat.
Proof.
  induction l as [|x l IH]; intros Himpl; cbn; [done|].
  assert (IH' : (length (List.filter f l) ≤ length (List.filter g l))%nat).
  { apply IH. intros y Hy. apply Himpl. by right. }
  pose proof (Himpl x ltac:(left)) as Hx.
  destruct (f x), (g x); cbn; first [lia | by specialize (Hx eq_refl)].
Qed.

Lemma sync_loop now (l : list (UUID * SocialMediaAccount.t)) c accounts :
  NoDup l.*1 →
  (∀ id a, (id, a) ∈ l → accounts !! id = Some a) →
  (foldl (sync_account now) (c, accounts) l).1
  = (c + length (List.filter
                   (λ kv, SocialMediaAccount.is_token_valid now kv.2) l))%nat
  ∧ ∀ id,
      (foldl (sync_account now) (c, accounts) l).2 !! id
      = match accounts !! id with
        | Some a =>
            if bool_decide (id ∈ l.*1) then
              Some (if SocialMediaAccount.is_token_valid now a
                    then SocialMediaAccount.set_last_sync (Some now) a
                    else SocialMediaAccount.set_status SocialMediaAccount.ERROR a)
            else Some a
        | None => None
        end.
Proof.
  revert c accounts. induction l as [|[k a] l IH]; intros c accounts Hnd Hin.
  { cbn. split; [lia|]. intros id. by destruct (accounts !! id). }
  apply NoDup_cons in Hnd as [Hk Hnd]. cbn [foldl sync_account].
  assert (Hka : accounts !! k = Some a) by (apply Hin; left).
  assert (Hrest : ∀ v id a', (id, a') ∈ l → <[k := v]> accounts !! id = Some a').
  { intros v id a' Hl. rewrite lookup_insert_ne.
    - apply Hin. by right.
    - intros <-. apply Hk. apply list_elem_of_fmap. by exists (k, a'). }
  cbn [List.filter snd].
  destruct (SocialMediaAccount.is_token_valid now a) eqn:Hvalid; cbn [negb];
    match goal with
    | |- context [foldl _ (?c', <[k := ?v]> accounts) l] =>
        destruct (IH c' (<[k := v]> accounts) Hnd (Hrest v)) as [Hcount Hrows]
    end;
    (split; [rewrite Hcount; cbn; lia|]);
    intros id; rewrite Hrows, fmap_cons; cbn [fst];
    (destruct (decide (id = k)) as [->|Hne];
     [ rewrite lookup_insert_eq, Hka, (bool_decide_eq_false_2 _ Hk),
         bool_decide_eq_true_2 by left; by rewrite Hvalid
     | rewrite lookup_insert_ne by done; destruct (accounts !! id); [|done];
       rewrite (bool_decide_ext (id ∈ k :: l.*1) (id ∈ l.*1)); [done|];
       rewrite elem_of_cons; split; [by intros [?|?] | by right] ]).
Qed.

Lemma sync_social_accounts_rows now accounts :
  (sync_social_accounts now accounts).1
  = length (List.filter
              (λ kv, SocialMediaAccount.is_token_valid now kv.2)
              (active_accounts accounts))
  ∧ ∀ id,
      (sync_social_accounts now accounts).2 !! id
      = match accounts !! id with
        | Some a =>
            if bool_decide (SocialMediaAccount.status a = SocialMediaAccount.ACTIVE)
            then Some (if SocialMediaAccount.is_token_valid now a
                       then SocialMediaAccount.set_last_sync (Some now) a
                       else SocialMediaAccount.set_status SocialMediaAccount.ERROR a)
            else Some a
        | None => None
        end.
Proof.
  unfold sync_social_accounts.
  destruct (sync_loop now (active_accounts accounts) 0 accounts)
    as [Hcount Hrows].
  - apply (sublist_NoDup _ (map_to_list accounts).*1).
    + apply NoDup_fst_map_to_list.
    + apply fmap_sublist, List_filter_sublist.
  - intros id a Hin. apply elem_of_List_filter in Hin as [_ Hin].
    by apply elem_of_map_to_list.
  - split; [done|]. intros id. rewrite Hrows.
    destruct (accounts !! id) as [a|] eqn:Ha; [|done].
    destruct (decide (SocialMediaAccount.status a = SocialMediaAccount.ACTIVE))
      as [Hactive|Hactive].
    + rewrite !bool_decide_eq_true_2; [done..|].
      apply list_elem_of_fmap. exists (id, a). split; [done|].
      apply elem_of_List_filter. split.
      * by apply bool_decide_eq_true.
      * by apply elem_of_map_to_list.
    + rewrite !bool_decide_eq_false_2; [done..|].
      intros Hin. apply list_elem_of_fmap in Hin as ([id' a'] & -> & Hin).
      apply elem_of_List_filter in Hin as [Hst Hin].
      apply bool_decide_eq_true in Hst. apply elem_of_map_to_list in Hin.
      cbn in *. congruence.
Qed.

(** X18. [sync_social_accounts] touches the ACTIVE accounts only: one whose
    token is valid at [now] gets [last_sync = now] and is counted, one
    whose token is not gets status ERROR and keeps its [last_sync]; all
    other accounts are left as they are and none is added or removed. The
    returned count is the number of ACTIVE accounts with a valid token. *)
Theorem sync_social_accounts_effect now accounts id :
  let synced := (sync_social_accounts now accounts).2 in
  (sync_social_accounts now accounts).1
  = length (List.filter
              (λ kv, SocialMediaAccount.is_token_valid now kv.2)
              (active_accounts accounts))
  ∧ (accounts !! id = None → synced !! id = None)
  ∧ ∀ a, accounts !! id = Some a →
      (SocialMediaAccount.status a ≠ SocialMediaAccount.ACTIVE →
       synced !! id = Some a)
      ∧ (SocialMediaAccount.status a = SocialMediaAccount.ACTIVE →
         SocialMediaAccount.is_token_valid now a = true →
         synced !! id = Some (SocialMediaAccount.set_last_sync (Some now) a))
      ∧ (SocialMediaAccount.status a = SocialMediaAccount.ACTIVE →
         SocialMediaAccount.is_token_valid now a = false →
         synced !! id
         = Some (SocialMediaAccount.set_status SocialMediaAccount.ERROR a)).
Proof.
  intros synced. subst synced.
  destruct (sync_social_accounts_rows now accounts) as [Hcount Hrows].
  split; [done|]. rewrite Hrows. split.
  - by intros ->.
  - intros a ->. split_and!.
    + intros Hst. by rewrite bool_decide_eq_false_2.
    + intros Hst ->. by rewrite bool_decide_eq_true_2.
    + intros Hst ->. by rewrite bool_decide_eq_true_2.
Qed.

Lemma sync_social_accounts_effect_witness :
  (sync_social_accounts (timedelta.seconds 200) two_accounts).2 !! 1%N
  = Some (SocialMediaAccount.set_status SocialMediaAccount.ERROR
            (SocialMediaAccount.mk "t1" (Some (timedelta.seconds 100))
               SocialMediaAccount.ACTIVE None)).
Proof.
  apply (sync_social_accounts_effect (timedelta.seconds 200) two_accounts 1%N);
    reflexivity.
Defined.

Lemma List_filter_fmap {A B} (f : B → bool) (g : A → B) (l : list A) :
  List.filter f (g <$> l) = g <$> List.filter (f ∘ g) l.
Proof.
  induction l as [|x l IH]; cbn; [done|].
  rewrite IH. by destruct (f (g x)).
Qed.

Lemma List_filter_filter {A} (f g : A → bool) (l : list A) :
  List.filter f (List.filter g l) = List.filter (λ x, g x && f x) l.
Proof.
  induction l as [|x l IH]; cbn; [done|].
  destruct (g x); cbn; [destruct (f x)|]; by rewrite IH.
Qed.

(** X19. Syncing again never counts more accounts than the sync before it,
    whatever the two instants: [sync_social_accounts] never sets an account
    to ACTIVE, so an account that was not ACTIVE, or that a sync has set to
    ERROR, is not touched by any later sync. *)
Theorem sync_count_never_grows now later accounts :
  ((sync_social_accounts later (sync_social_accounts now accounts).2).1
   ≤ (sync_social_accounts now accounts).1)%nat
  ∧ ∀ id a, accounts !! id = Some a →
      SocialMediaAccount.status a ≠ SocialMediaAccount.ACTIVE
      ∨ SocialMediaAccount.is_token_valid now a = false →
      (sync_social_accounts later (sync_social_accounts now accounts).2).2 !! id
      = (sync_social_accounts now accounts).2 !! id.
Proof.
  destruct (sync_social_accounts_rows now accounts) as [Hcount1 Hrows1].
  destruct (sync_social_accounts_rows later (sync_social_accounts now accounts).2)
    as [Hcount2 Hrows2].
  split.
  - set (g := λ a : SocialMediaAccount.t,
          if bool_decide (SocialMediaAccount.status a = SocialMediaAccount.ACTIVE)
          then if SocialMediaAccount.is_token_valid now a
               then SocialMediaAccount.set_last_sync (Some now) a
               else SocialMediaAccount.set_status SocialMediaAccount.ERROR a
          else a).
    assert (Hmap : (sync_social_accounts now accounts).2 = g <$> accounts).
    { apply map_eq. intros id. rewrite Hrows1, lookup_fmap. subst g.
      destruct (accounts !! id); cbn; [|done]. by case_bool_decide. }
    rewrite Hcount2, Hcount1, Hmap. unfold active_accounts.
    rewrite !List_filter_filter.
    rewrite map_to_list_fmap.
    rewrite List_filter_fmap, length_fmap.
    apply length_List_filter_le. intros [id a] _. subst g. cbn.
    destruct (bool_decide (SocialMediaAccount.status a = SocialMediaAccount.ACTIVE))
      eqn:Hactive.
    + destruct (SocialMediaAccount.is_token_valid now a); cbn; [done|].
      by rewrite bool_decide_eq_false_2.
    + by rewrite Hactive.
  - intros id a Ha Hout. rewrite Hrows2, Hrows1, Ha.
    destruct (bool_decide (SocialMediaAccount.status a = SocialMediaAccount.ACTIVE))
      eqn:Hactive.
    + destruct Hout as [Hst|Hvalid].
      { by apply bool_decide_eq_true in Hactive. }
      rewrite Hvalid. cbn. by rewrite bool_decide_eq_false_2.
    + by rewrite Hactive.
Qed.

Lemma sync_count_never_grows_witness :
  (sync_social_accounts (timedelta.seconds 300)
     (sync_social_accounts (timedelta.seconds 200) two_accounts).2).2 !! 1%N
  = (sync_social_accounts (timedelta.seconds 200) two_accounts).2 !! 1%N.
Proof.
  destruct (sync_count_never_grows (timedelta.seconds 200)
              (timedelta.seconds 300) two_accounts) as [_ Hkept].
  apply (Hkept 1%N
           (SocialMediaAccount.mk "t1" (Some (timedelta.seconds 100))
              SocialMediaAccount.ACTIVE None)).
  - reflexivity.
  - right. reflexivity.
Defined.

(** ** [AIConversationContext] *)

(** X20. [get_recent_messages(limit)] returns, for a positive [limit], the
    last [min(limit, n)] messages of the history in their order. For
    [limit = 0] it returns the whole history, not an empty list, and for a
    negative [limit] the history without its first [-limit] messages. A
    message added with [add_message] is the one that
    [get_recent_messages(1)] returns. *)
Theorem get_recent_messages_spec (limit : Z) (self : AIConversationContext.t) :
  let history := AIConversationContext.conversation_history self in
  let recent := AIConversationContext.get_recent_messages limit self in
  (0 < limit →
   recent = drop (length history - Z.to_nat limit) history
   ∧ length recent = (Z.to_nat limit `min` length history)%nat
   ∧ recent `suffix_of` history)
  ∧ (limit = 0 → recent = history)
  ∧ (limit < 0 → recent = drop (Z.to_nat (- limit)) history)
  ∧ ∀ now role content,
      AIConversationContext.get_recent_messages 1
        (AIConversationContext.add_message now role content self)
      = [{| AIConversationContext.role := role;
            AIConversationContext.content := content;
            AIConversationContext.timestamp := now |}].
Proof.
  intros history recent. subst recent.
  unfold AIConversationContext.get_recent_messages, slice_from.
  fold history. split_and!.
  - intros Hpos. destruct (Z.ltb_spec (- limit) 0); [|lia].
    assert (Hstart : Z.to_nat (Z.max (Z.of_nat (length history) + - limit) 0)
                     = (length history - Z.to_nat limit)%nat) by lia.
    rewrite Hstart. split_and!; [done| |].
    + rewrite length_drop. lia.
    + apply suffix_drop.
  - intros ->. cbn. by rewrite drop_0.
  - intros Hneg. destruct (Z.ltb_spec (- limit) 0); [lia|done].
  - intros now role content. cbn [AIConversationContext.add_message
      AIConversationContext.conversation_history].
    rewrite length_app. cbn [length]. fold history.
    replace (- (1) <? 0) with true by done.
    replace (Z.to_nat (Z.max (Z.of_nat (length history + 1) + - (1)) 0))
      with (length history) by lia.
    by rewrite drop_app_length.
Qed.

Lemma get_recent_messages_spec_witness :
  AIConversationContext.get_recent_messages 0
    (AIConversationContext.mk
       [{| AIConversationContext.role := "user";
           AIConversationContext.content := "gm";
           AIConversationContext.timestamp := 0 |}] 10)
  = [{| AIConversationContext.role := "user";
        AIConversationContext.content := "gm";
        AIConversationContext.timestamp := 0 |}].
Proof.
  destruct (get_recent_messages_spec 0
              (AIConversationContext.mk
                 [{| AIConversationContext.role := "user";
                     AIConversationContext.content := "gm";
                     AIConversationContext.timestamp := 0 |}] 10))
    as (_ & Hzero & _).
  apply Hzero. reflexivity.
Defined.

(** ** [update_trending_hashtags] *)

Lemma bump_tags_spec now tags c table :
  NoDup (replace_hash <$> tags) →
  (∀ name found, name ∈ replace_hash <$> tags → table !! name = Some found →
     Z.abs (SocialMediaHashtag.trending_score found)
     < 10 ^ 10 - SocialMediaHashtag.points 10) →
  (bump_tags now tags c table).1 = Some (c + length tags)%nat
  ∧ ∀ name,
      (bump_tags now tags c table).2 !! name
      = if bool_decide (name ∈ replace_hash <$> tags)
        then Some (bumped now (table !! name))
        else table !! name.
Proof.
  revert c table. induction tags as [|tag tags IH]; intros c table Hnd Hroom.
  { cbn. split; [f_equal; lia | done]. }
  rewrite fmap_cons in Hnd, Hroom |- *. apply NoDup_cons in Hnd as [Hfresh Hnd].
  cbn [bump_tags]. fold (bumped now (table !! replace_hash tag)).
  set (name := replace_hash tag) in *.
  assert (Hsave : save_hashtag now name (bumped now (table !! name)) table
                  = Some (<[name := bumped now (table !! name)]> table)).
  { unfold save_hashtag, SocialMediaHashtag.storable.
    destruct (table !! name) as [found|] eqn:Hfound; cbn.
    - pose proof (Hroom name found ltac:(left) Hfound) as Hfits.
      unfold SocialMediaHashtag.points in *.
      by rewrite (proj2 (Z.ltb_lt _ _)) by lia.
    - done. }
  rewrite Hsave.
  destruct (IH (c + 1)%nat (<[name := bumped now (table !! name)]> table) Hnd)
    as [Hcount Hrows].
  { intros name' found Hin Hlook. rewrite lookup_insert_ne in Hlook.
    - eapply Hroom; [by right | done].
    - by intros <-. }
  split; [rewrite Hcount; cbn; f_equal; lia|].
  intros name'. rewrite Hrows.
  destruct (decide (name' = name)) as [->|Hne].
  - rewrite (bool_decide_eq_false_2 _ Hfresh), lookup_insert_eq.
    by rewrite bool_decide_eq_true_2 by left.
  - rewrite lookup_insert_ne by done.
    rewrite (bool_decide_ext (name' ∈ name :: (replace_hash <$> tags))
               (name' ∈ replace_hash <$> tags)); [done|].
    rewrite elem_of_cons. split; [by intros [?|?] | by right].
Qed.

Lemma decay_hashtags_spec now (rows : list (string * SocialMediaHashtag.t))
    table :
  NoDup rows.*1 →
  (∀ tag hashtag, (tag, hashtag) ∈ rows →
     table !! tag = Some hashtag
     ∧ Z.abs (SocialMediaHashtag.trending_score hashtag) < 10 ^ 10) →
  (decay_hashtags now rows table).1 = true
  ∧ ∀ name,
      (decay_hashtags now rows table).2 !! name
      = match table !! name with
        | Some hashtag =>
            Some (if bool_decide (name ∈ rows.*1) then decayed now hashtag
                  else hashtag)
        | None => None
        end.
Proof.
  revert table. induction rows as [|[tag hashtag] rows IH]; intros table Hnd Hin.
  { cbn. split; [done|]. intros name. by destruct (table !! name). }
  rewrite fmap_cons in Hnd. cbn [fst] in Hnd.
  apply NoDup_cons in Hnd as [Hfresh Hnd]. cbn [decay_hashtags].
  destruct (Hin tag hashtag ltac:(left)) as [Hrow Hfits].
  assert (Hsave : save_hashtag now tag (decayed now hashtag) table
                  = Some (<[tag := decayed now hashtag]> table)).
  { unfold save_hashtag, SocialMediaHashtag.storable, decayed,
      SocialMediaHashtag.points. cbn.
    by rewrite (proj2 (Z.ltb_lt _ _)) by lia. }
  rewrite Hsave.
  destruct (IH (<[tag := decayed now hashtag]> table) Hnd) as [Hok Hrows].
  { intros tag' hashtag' Hin'.
    destruct (Hin tag' hashtag' ltac:(by right)) as [Hrow' Hfits'].
    split; [|done]. rewrite lookup_insert_ne; [done|].
    intros <-. apply Hfresh. apply list_elem_of_fmap. by exists (tag, hashtag'). }
  split; [done|]. intros name. rewrite Hrows, fmap_cons. cbn [fst].
  destruct (decide (name = tag)) as [->|Hne].
  - rewrite lookup_insert_eq, Hrow, (bool_decide_eq_false_2 _ Hfresh).
    by rewrite bool_decide_eq_true_2 by left.
  - rewrite lookup_insert_ne by done. destruct (table !! name); [|done].
    rewrite (bool_decide_ext (name ∈ tag :: rows.*1) (name ∈ rows.*1)); [done|].
    rewrite elem_of_cons. split; [by intros [?|?] | by right].
Qed.

Lemma elem_of_old_hashtags now table name :
  name ∈ (old_hashtags now table).*1
  ↔ ∃ hashtag, table !! name = Some hashtag
      ∧ SocialMediaHashtag.last_updated hashtag < now - timedelta.hours 6.
Proof.
  unfold old_hashtags. rewrite list_elem_of_fmap. split.
  - intros ([name' hashtag] & -> & Hin).
    apply elem_of_List_filter in Hin as [Hold Hin].
    apply Z.ltb_lt in Hold. apply elem_of_map_to_list in Hin. by exists hashtag.
  - intros (hashtag & Hrow & Hold). exists (name, hashtag). split; [done|].
    apply elem_of_List_filter. split.
    + by apply Z.ltb_lt.
    + by apply elem_of_map_to_list.
Qed.

Lemma NoDup_trending_names : NoDup trending_names.
Proof. by apply (bool_decide_unpack (NoDup trending_names)); vm_compute. Qed.

Lemma update_trending_hashtags_rows now table :
  with_headroom 1 table →
  (update_trending_hashtags now table).1 = Some 9%nat
  ∧ ∀ name,
      (update_trending_hashtags now table).2 !! name
      = if bool_decide (name ∈ trending_names)
        then Some (bumped now (table !! name))
        else match table !! name with
             | Some hashtag =>
                 Some (if SocialMediaHashtag.last_updated hashtag
                          <? now - timedelta.hours 6
                       then decayed now hashtag else hashtag)
             | None => None
             end.
Proof.
  intros Hroom. unfold update_trending_hashtags.
  destruct (bump_tags_spec now trending_tags 0 table NoDup_trending_names)
    as [Hcount Hrows1].
  { intros name found _ Hrow. specialize (Hroom name found Hrow). lia. }
  fold trending_names in Hrows1.
  destruct (bump_tags now trending_tags 0 table) as [count table1].
  cbn [fst snd] in *. subst count.
  destruct (decay_hashtags_spec now (old_hashtags now table1) table1)
    as [Hok Hrows2].
  { apply (sublist_NoDup _ (map_to_list table1).*1).
    - apply NoDup_fst_map_to_list.
    - apply fmap_sublist, List_filter_sublist. }
  { intros tag hashtag Hin. apply elem_of_List_filter in Hin as [_ Hin].
    apply elem_of_map_to_list in Hin. split; [done|].
    rewrite Hrows1 in Hin. case_bool_decide.
    - injection Hin as <-. unfold bumped, SocialMediaHashtag.points.
      destruct (table !! tag) as [found|] eqn:Hfound; cbn; [|lia].
      specialize (Hroom tag found Hfound).
      unfold SocialMediaHashtag.points in Hroom. lia.
    - specialize (Hroom tag hashtag Hin).
      unfold SocialMediaHashtag.points in Hroom. lia. }
  destruct (decay_hashtags now (old_hashtags now table1) table1)
    as [ok table2].
  cbn [fst snd] in *. subst ok. cbn [fst snd]. split; [done|].
  intros name. rewrite Hrows2, Hrows1.
  assert (Hhours : 0 < timedelta.hours 6) by done.
  case_bool_decide as Hlisted.
  - rewrite bool_decide_eq_false_2; [done|].
    rewrite elem_of_old_hashtags. intros (hashtag & Hrow & Hold).
    rewrite Hrows1, bool_decide_eq_true_2 in Hrow by done.
    injection Hrow as <-.
    unfold bumped in Hold. destruct (table !! name); cbn in Hold; lia.
  - destruct (table !! name) as [hashtag|] eqn:Hrow; [|done]. f_equal.
    destruct (Z.ltb_spec (SocialMediaHashtag.last_updated hashtag)
                (now - timedelta.hours 6)) as [Hold|Hrecent].
    + rewrite bool_decide_eq_true_2; [done|].
      apply elem_of_old_hashtags. exists hashtag. split; [|done].
      by rewrite Hrows1, bool_decide_eq_false_2.
    + rewrite bool_decide_eq_false_2; [done|].
      rewrite elem_of_old_hashtags. intros (hashtag' & Hrow' & Hold).
      rewrite Hrows1, bool_decide_eq_false_2 in Hrow' by done.
      assert (hashtag' = hashtag) as -> by congruence. lia.
Qed.

(** X21. With room left in the score column, [update_trending_hashtags]
    returns 9, whatever the table. Each of the nine listed tags ends up
    stored, trending and updated at [now]: created in category crypto with
    score 100, or, if it existed, ten points up. Any other hashtag that was
    last updated more than six hours ago loses five points, never going
    below 0, is trending only if more than 50 points are left, and is
    stamped [now]; the remaining hashtags are untouched. No hashtag is
    deleted. *)
Theorem update_trending_hashtags_effect now table name :
  with_headroom 1 table →
  let run := update_trending_hashtags now table in
  run.1 = Some 9%nat
  ∧ (name ∈ trending_names →
     run.2 !! name = Some (bumped now (table !! name)))
  ∧ (name ∉ trending_names →
     ∀ hashtag, table !! name = Some hashtag →
       (SocialMediaHashtag.last_updated hashtag < now - timedelta.hours 6 →
        run.2 !! name
        = Some (SocialMediaHashtag.mk (SocialMediaHashtag.category hashtag)
                  (Z.max 0 (SocialMediaHashtag.trending_score hashtag
                            - SocialMediaHashtag.points 5))
                  (bool_decide
                     (SocialMediaHashtag.points 55
                      < SocialMediaHashtag.trending_score hashtag))
                  now))
       ∧ (now - timedelta.hours 6 ≤ SocialMediaHashtag.last_updated hashtag →
          run.2 !! name = Some hashtag))
  ∧ (name ∉ trending_names → table !! name = None → run.2 !! name = None).
Proof.
  intros Hroom run. subst run.
  destruct (update_trending_hashtags_rows now table Hroom) as [Hcount Hrows].
  split; [done|]. rewrite Hrows. split_and!.
  - intros Hlisted. by rewrite bool_decide_eq_true_2.
  - intros Hother hashtag ->. rewrite bool_decide_eq_false_2 by done. split.
    + intros Hold. rewrite (proj2 (Z.ltb_lt _ _)) by done.
      unfold decayed. do 2 f_equal. unfold SocialMediaHashtag.points.
      destruct (Z.ltb_spec (50 * 100)
                  (Z.max 0 (SocialMediaHashtag.trending_score hashtag - 5 * 100)));
        [rewrite bool_decide_eq_true_2 | rewrite bool_decide_eq_false_2];
        done || lia.
    + intros Hrecent. by rewrite (proj2 (Z.ltb_ge _ _)).
  - intros Hother ->. by rewrite bool_decide_eq_false_2.
Qed.

Lemma update_trending_hashtags_effect_witness :
  (update_trending_hashtags (timedelta.hours 7) one_stale_hashtag).2 !! "memecoin"
  = Some (SocialMediaHashtag.mk "crypto" (SocialMediaHashtag.points 47) false
            (timedelta.hours 7)).
Proof.
  destruct (update_trending_hashtags_effect (timedelta.hours 7)
              one_stale_hashtag "memecoin") as (_ & _ & Hother & _).
  - intros tag hashtag Hrow. unfold one_stale_hashtag in Hrow.
    apply lookup_singleton_Some in Hrow as [_ <-]. by vm_compute.
  - assert (Hunlisted : "memecoin" ∉ trending_names)
      by (by apply (bool_decide_unpack ("memecoin" ∉ trending_names));
          vm_compute).
    destruct (Hother Hunlisted
                (SocialMediaHashtag.mk "crypto" (SocialMediaHashtag.points 52)
                   true 0) eq_refl) as [Hold _].
    apply Hold. by vm_compute.
Defined.

(** X22. Because every save stamps [last_updated], a hashtag that is not on
    the list is decayed at most once in six hours however often the task
    runs: two runs no more than six hours apart take at most five points
    off its score between them, while a listed tag gains ten points in each
    of the two runs. *)
Theorem decay_at_most_once_in_six_hours now later table name hashtag :
  with_headroom 2 table →
  now ≤ later ≤ now + timedelta.hours 6 →
  table !! name = Some hashtag →
  let twice :=
    update_trending_hashtags later (update_trending_hashtags now table).2 in
  twice.1 = Some 9%nat
  ∧ ∃ hashtag2,
      twice.2 !! name = Some hashtag2
      ∧ (name ∈ trending_names →
         SocialMediaHashtag.trending_score hashtag2
         = SocialMediaHashtag.trending_score hashtag
           + SocialMediaHashtag.points 20)
      ∧ (name ∉ trending_names →
         SocialMediaHashtag.trending_score hashtag - SocialMediaHashtag.points 5
         ≤ SocialMediaHashtag.trending_score hashtag2).
Proof.
  intros Hroom Hlater Hrow twice. subst twice.
  destruct (update_trending_hashtags_rows now table) as [_ Hrows1].
  { intros tag found Hfound. specialize (Hroom tag found Hfound).
    unfold SocialMediaHashtag.points in *. lia. }
  destruct (update_trending_hashtags_rows later
              (update_trending_hashtags now table).2) as [Hcount Hrows2].
  { intros tag found Hfound. rewrite Hrows1 in Hfound.
    unfold SocialMediaHashtag.points. case_bool_decide.
    - injection Hfound as <-. unfold bumped, SocialMediaHashtag.points.
      destruct (table !! tag) as [h|] eqn:Hh; cbn; [|lia].
      specialize (Hroom tag h Hh). unfold SocialMediaHashtag.points in Hroom.
      lia.
    - destruct (table !! tag) as [h|] eqn:Hh; [|done]. injection Hfound as <-.
      specialize (Hroom tag h Hh). unfold SocialMediaHashtag.points in Hroom.
      unfold decayed, SocialMediaHashtag.points. case_match; cbn; lia. }
  split; [done|]. rewrite Hrows2, Hrows1, Hrow.
  unfold SocialMediaHashtag.points. case_bool_decide as Hlisted.
  - eexists. split; [done|]. split; [|done]. intros _.
    cbn [bumped SocialMediaHashtag.trending_score]. unfold SocialMediaHashtag.points. lia.
  - destruct (Z.ltb_spec (SocialMediaHashtag.last_updated hashtag)
                (now - timedelta.hours 6)) as [Hold|Hrecent].
    + eexists. split; [done|]. split; [done|]. intros _.
      assert (Hfresh : (SocialMediaHashtag.last_updated (decayed now hashtag)
                        <? later - timedelta.hours 6) = false)
        by (apply Z.ltb_ge; cbn; lia).
      rewrite Hfresh. unfold decayed, SocialMediaHashtag.points.
      cbn [SocialMediaHashtag.trending_score]. lia.
    + eexists. split; [done|]. split; [done|]. intros _.
      unfold decayed, SocialMediaHashtag.points. case_match; cbn; lia.
Qed.

Lemma decay_at_most_once_in_six_hours_witness :
  (update_trending_hashtags (timedelta.hours 8)
     (update_trending_hashtags (timedelta.hours 7) one_stale_hashtag).2).1
  = Some 9%nat.
Proof.
  apply (decay_at_most_once_in_six_hours (timedelta.hours 7)
           (timedelta.hours 8) one_stale_hashtag "memecoin"
           (SocialMediaHashtag.mk "crypto" (SocialMediaHashtag.points 52)
              true 0)).
  - intros tag hashtag Hrow. unfold one_stale_hashtag in Hrow.
    apply lookup_singleton_Some in Hrow as [_ <-]. by vm_compute.
  - by vm_compute.
  - reflexivity.
Defined.

(** ** [bulk_schedule_posts] *)

Lemma uuid4_fresh {A} (table : gmap UUID A) : table !! uuid4 table = None.
Proof. apply not_elem_of_dom. unfold uuid4. apply is_fresh. Qed.

Lemma schedule_post_spec fromisoformat now user post_data w :
  let run := schedule_post fromisoformat now user post_data w in
  entry_of fromisoformat post_data run.1
  ∧ posts w ⊆ posts run.2
  ∧ schedules w ⊆ schedules run.2
  ∧ webhooks run.2 = webhooks w
  ∧ queue run.2 = queue w
  ∧ adapter_calls run.2 = adapter_calls w
  ∧ (bound_to_posts w → bound_to_posts run.2)
  ∧ match run.1 with
    | BulkError _ _ => run.2 = w
    | BulkScheduled post_id schedule_id platform scheduled_time =>
        posts w !! post_id = None
        ∧ schedules w !! schedule_id = None
        ∧ (∃ content media_urls,
             posts run.2 !! post_id
             = Some (SocialMediaPost.mk user platform content media_urls None
                       None (Some scheduled_time) None SCHEDULED "" ∅ now))
        ∧ schedules run.2 !! schedule_id
          = Some (SocialMediaSchedule.mk post_id scheduled_time false None 0 3
                    None "")
    end.
Proof.
  intros run. subst run. unfold schedule_post, entry_of.
  destruct (read_post_data fromisoformat post_data)
    as [error|[[[platform content] media_urls] scheduled_time]];
    cbn [fst snd].
  { split_and!; done. }
  unfold save_post, save_schedule, set_posts, set_schedules.
  cbn [posts schedules webhooks queue adapter_calls].
  pose proof (uuid4_fresh (posts w)) as Hpost.
  pose proof (uuid4_fresh (schedules w)) as Hschedule.
  split_and!; try done.
  - by apply insert_subseteq.
  - by apply insert_subseteq.
  - intros Hbound id s Hs. cbn [posts schedules] in *.
    destruct (decide (id = uuid4 (schedules w))) as [->|Hne].
    + rewrite lookup_insert_eq in Hs. injection Hs as <-.
      cbn [SocialMediaSchedule.post]. rewrite lookup_insert_eq. by eexists.
    + rewrite lookup_insert_ne in Hs by done.
      destruct (Hbound id s Hs) as [p Hp]. exists p.
      rewrite lookup_insert_ne; [done|]. intros Heq. rewrite <- Heq in Hp.
      congruence.
  - exists content, media_urls. apply lookup_insert_eq.
  - apply lookup_insert_eq.
Qed.

Lemma schedule_posts_spec fromisoformat now user posts_data w :
  let run := schedule_posts fromisoformat now user posts_data w in
  Forall2 (entry_of fromisoformat) posts_data run.1
  ∧ posts w ⊆ posts run.2
  ∧ schedules w ⊆ schedules run.2
  ∧ webhooks run.2 = webhooks w
  ∧ queue run.2 = queue w
  ∧ adapter_calls run.2 = adapter_calls w
  ∧ (bound_to_posts w → bound_to_posts run.2)
  ∧ ∀ post_id schedule_id platform scheduled_time,
      BulkScheduled post_id schedule_id platform scheduled_time ∈ run.1 →
      posts w !! post_id = None
      ∧ schedules w !! schedule_id = None
      ∧ (∃ content media_urls,
           posts run.2 !! post_id
           = Some (SocialMediaPost.mk user platform content media_urls None
                     None (Some scheduled_time) None SCHEDULED "" ∅ now))
      ∧ schedules run.2 !! schedule_id
        = Some (SocialMediaSchedule.mk post_id scheduled_time false None 0 3
                  None "").
Proof.
  revert w. induction posts_data as [|post_data rest IH]; intros w run;
    subst run; cbn [schedule_posts].
  { cbn. split_and!; try done. intros ???? Hin. by apply elem_of_nil in Hin. }
  destruct (schedule_post_spec fromisoformat now user post_data w)
    as (Hentry & Hposts1 & Hschedules1 & Hwebhooks1 & Hqueue1 & Hcalls1
        & Hbound1 & Hcreated).
  destruct (schedule_post fromisoformat now user post_data w) as [entry w1].
  specialize (IH w1).
  destruct (schedule_posts fromisoformat now user rest w1) as [entries w2].
  cbn [fst snd] in *.
  destruct IH as (Hentries & Hposts2 & Hschedules2 & Hwebhooks2 & Hqueue2
                  & Hcalls2 & Hbound2 & Hrest).
  split_and!.
  - by constructor.
  - by etransitivity.
  - by etransitivity.
  - congruence.
  - congruence.
  - congruence.
  - auto.
  - intros post_id schedule_id platform scheduled_time Hin.
    apply elem_of_cons in Hin as [<-|Hin].
    + destruct Hcreated as (Hp & Hs & (content & media_urls & Hpost) & Hsched).
      split_and!; [done..| |].
      * exists content, media_urls.
        by apply (lookup_weaken _ _ _ _ Hpost).
      * by apply (lookup_weaken _ _ _ _ Hsched).
    + destruct (Hrest _ _ _ _ Hin) as (Hp & Hs & Hpost & Hsched).
      split_and!; [| |done..].
      * destruct (posts w !! post_id) eqn:Hold; [|done].
        by rewrite (lookup_weaken _ _ _ _ Hold Hposts1) in Hp.
      * destruct (schedules w !! schedule_id) eqn:Hold; [|done].
        by rewrite (lookup_weaken _ _ _ _ Hold Hschedules1) in Hs.
Qed.

(** X23. [bulk_schedule_posts] raises [User.DoesNotExist] for an unknown
    user and writes nothing. Otherwise it returns one entry per element of
    [posts_data], in order: an error entry, with nothing created, for an
    element without [platform], [content] or [scheduled_time] or with a date
    that does not parse, and else the ids of a new SCHEDULED post of that
    user and of a new unprocessed schedule entry for it (retry count 0 of
    3). Stored posts and schedules are kept as they are, nothing is queued,
    and every schedule entry still points at a stored post. *)
Theorem bulk_schedule_posts_creates fromisoformat users now posts_data
    user_id w :
  let run := bulk_schedule_posts fromisoformat users now posts_data user_id w in
  (user_id ∉ users → run = (Raise (DoesNotExist "User"), w))
  ∧ (user_id ∈ users →
     ∃ entries,
       run.1 = Ok entries
       ∧ Forall2 (entry_of fromisoformat) posts_data entries
       ∧ posts w ⊆ posts run.2
       ∧ schedules w ⊆ schedules run.2
       ∧ queue run.2 = queue w
       ∧ (bound_to_posts w → bound_to_posts run.2)
       ∧ ∀ post_id schedule_id platform scheduled_time,
           BulkScheduled post_id schedule_id platform scheduled_time ∈ entries →
           posts w !! post_id = None
           ∧ schedules w !! schedule_id = None
           ∧ (∃ content media_urls,
                posts run.2 !! post_id
                = Some (SocialMediaPost.mk user_id platform content media_urls
                          None None (Some scheduled_time) None SCHEDULED "" ∅
                          now))
           ∧ schedules run.2 !! schedule_id
             = Some (SocialMediaSchedule.mk post_id scheduled_time false None
                       0 3 None "")).
Proof.
  intros run. subst run. unfold bulk_schedule_posts. split.
  - intros Huser. by rewrite bool_decide_eq_false_2.
  - intros Huser. rewrite bool_decide_eq_true_2 by done.
    destruct (schedule_posts_spec fromisoformat now user_id posts_data w)
      as (Hentries & Hposts & Hschedules & _ & Hqueue & _ & Hbound & Hcreated).
    destruct (schedule_posts fromisoformat now user_id posts_data w)
      as [entries w'].
    exists entries. by split_and!.
Qed.

Lemma bulk_schedule_posts_creates_witness :
  bulk_schedule_posts one_date {[ 1%N ]} 0 two_items 2%N one_draft
  = (Raise (DoesNotExist "User"), one_draft).
Proof.
  apply (bulk_schedule_posts_creates one_date {[ 1%N ]} 0 two_items 2%N
           one_draft).
  set_solver.
Defined.

(** X24. What [bulk_schedule_posts] schedules, [process_scheduled_posts]
    submits: in a sweep at or after the scheduled time of a returned entry,
    with the broker taking the post, the post is queued for
    [post_to_social_media] and its schedule entry is marked processed at the
    time of the sweep. *)
Theorem bulk_scheduled_post_is_swept fromisoformat users now posts_data
    user_id w broker later entries post_id schedule_id platform scheduled_time :
  (bulk_schedule_posts fromisoformat users now posts_data user_id w).1
  = Ok entries →
  BulkScheduled post_id schedule_id platform scheduled_time ∈ entries →
  scheduled_time ≤ later →
  broker post_id = None →
  let w1 := (bulk_schedule_posts fromisoformat users now posts_data user_id w).2 in
  let w2 := (process_scheduled_posts broker later w1).2 in
  post_to_social_media_msg post_id ∈ queue w2
  ∧ schedules w2 !! schedule_id
    = Some (SocialMediaSchedule.mk post_id scheduled_time true (Some later) 0 3
              None "")
  ∧ (1 ≤ (process_scheduled_posts broker later w1).1)%nat.
Proof.
  intros Hrun Hentry Hdue Hbroker w1 w2. subst w1 w2.
  unfold bulk_schedule_posts in *.
  case_bool_decide; [|done].
  destruct (schedule_posts_spec fromisoformat now user_id posts_data w)
    as (_ & _ & _ & _ & _ & _ & _ & Hcreated).
  destruct (schedule_posts fromisoformat now user_id posts_data w)
    as [entries' w1].
  cbn [fst snd] in *. injection Hrun as ->.
  destruct (Hcreated _ _ _ _ Hentry)
    as (_ & _ & (content & media_urls & Hpost) & Hschedule).
  set (schedule := SocialMediaSchedule.mk post_id scheduled_time false None 0 3
                     None "") in *.
  set (post := SocialMediaPost.mk user_id platform content media_urls None None
                 (Some scheduled_time) None SCHEDULED "" ∅ now) in *.
  assert (Hrow : (schedule_id, schedule, post) ∈ due_schedules later w1).
  { apply elem_of_due_schedules. by split_and!. }
  unfold process_scheduled_posts.
  destruct (sweep_loop_queue broker later (due_schedules later w1) (0%nat, w1))
    as [Hqueue Hcount].
  assert (Hsubmitted : (schedule_id, schedule, post)
                       ∈ List.filter (submitted broker) (due_schedules later w1)).
  { apply elem_of_List_filter. split; [|done].
    unfold submitted. cbn. by rewrite Hbroker. }
  split_and!.
  - rewrite Hqueue. apply elem_of_app. right.
    apply list_elem_of_fmap. by exists (schedule_id, schedule, post).
  - rewrite (sweep_loop_selected broker later _ _ schedule_id schedule post);
      [|apply NoDup_due_schedules|done].
    unfold swept. cbn. by rewrite Hbroker.
  - rewrite Hcount. cbn.
    destruct (List.filter _ _); [by apply elem_of_nil in Hsubmitted | cbn; lia].
Qed.

Lemma bulk_scheduled_post_is_swept_witness :
  ∃ post_id,
    post_to_social_media_msg post_id
    ∈ queue (process_scheduled_posts broker_up (timedelta.hours 2)
               (bulk_schedule_posts one_date {[ 1%N ]} 0 two_items 1%N
                  one_draft).2).2.
Proof.
  destruct (bulk_schedule_posts one_date {[ 1%N ]} 0 two_items 1%N one_draft)
    as [result w1] eqn:Hrun.
  destruct result as [entries|e]; [|by vm_compute in Hrun].
  destruct entries as [|[post_id schedule_id platform scheduled_time|error d] rest];
    [by vm_compute in Hrun| |by vm_compute in Hrun].
  exists post_id.
  assert (Htime : scheduled_time = timedelta.hours 1).
  { vm_compute in Hrun. by injection Hrun as <- <- <- <-. }
  replace w1 with (bulk_schedule_posts one_date {[ 1%N ]} 0 two_items 1%N
                     one_draft).2 by (by rewrite Hrun).
  apply (bulk_scheduled_post_is_swept one_date {[ 1%N ]} 0 two_items 1%N
           one_draft broker_up (timedelta.hours 2)
           (BulkScheduled post_id schedule_id platform scheduled_time :: rest)
           post_id schedule_id platform scheduled_time).
  - by rewrite Hrun.
  - left.
  - rewrite Htime. by vm_compute.
  - reflexivity.
Defined.
